(** * Reactive state engine of mini-framework: a shallow embedding

    The development follows the four JavaScript classes that make up the
    state engine:

    - [StateSecurity]      (sanitizeState, validatePath, validateKey),
    - [ReactiveState]      (get, set, setByPath, update, computed),
    - [SubscribersManager] (subscribe, notifySubscribers and its two helpers),
    - [ComputedManager]    (computed).

    JavaScript values are an inductive type; objects are association lists
    in insertion order; 8-bit characters stand for UTF-16 code units below
    256; numbers are integers (NaN, fractions and negative zero are not
    represented).  The value tree is first treated as a value ([Tree]);
    the engine then keeps the root objects in a heap, because a merge
    replaces the root while older roots stay in use.  A callback is the
    sequence of calls it makes on the store ([Prog]); the engine records
    what it invokes in a trace.  A function that returns an [option]
    returns [None] when it runs out of [fuel] or when it meets a property
    of the host that the embedding does not describe. *)

From Stdlib Require Import List String Ascii ZArith Lia Bool Arith PeanoNat.
Import ListNotations.
Local Open Scope string_scope.
Local Open Scope list_scope.

Set Warnings "-register-all".

(** ** JavaScript values *)

Inductive Value : Type :=
| VUndef
| VNull
| VBool (b : bool)
| VNum (n : Z)
| VStr (s : string)
| VFun (name : string)
| VArr (items : list Value)
| VObj (props : list (string * Value)).

(** An induction principle that reaches the values stored in arrays and
    objects. *)
Section ValueInd.
Variable P : Value -> Prop.
Hypothesis HUndef : P VUndef.
Hypothesis HNull : P VNull.
Hypothesis HBool : forall b, P (VBool b).
Hypothesis HNum : forall n, P (VNum n).
Hypothesis HStr : forall s, P (VStr s).
Hypothesis HFun : forall f, P (VFun f).
Hypothesis HArr : forall xs, Forall P xs -> P (VArr xs).
Hypothesis HObj : forall ps, Forall (fun kv => P (snd kv)) ps -> P (VObj ps).

Fixpoint Value_deep_ind (v : Value) : P v :=
  match v with
  | VUndef => HUndef
  | VNull => HNull
  | VBool b => HBool b
  | VNum n => HNum n
  | VStr s => HStr s
  | VFun f => HFun f
  | VArr xs =>
      HArr xs ((fix go (l : list Value) : Forall P l :=
               match l with
               | [] => Forall_nil P
               | x :: r => Forall_cons x (Value_deep_ind x) (go r)
               end) xs)
  | VObj ps =>
      HObj ps ((fix go (l : list (string * Value))
               : Forall (fun kv => P (snd kv)) l :=
               match l with
               | [] => Forall_nil _
               | kv :: r =>
                   Forall_cons kv (Value_deep_ind (snd kv)) (go r)
               end) ps)
  end.
End ValueInd.

(** ** Strings: [trim] and [split] *)

(** White space removed by [String.prototype.trim], among the code units
    below 256: TAB, LF, VT, FF, CR, SP and NBSP. *)
Definition is_ws (c : ascii) : bool :=
  let n := nat_of_ascii c in
  (n =? 9)%nat || (n =? 10)%nat || (n =? 11)%nat || (n =? 12)%nat
  || (n =? 13)%nat || (n =? 32)%nat || (n =? 160)%nat.

(** [s.trim() === ''] *)
Fixpoint trim_is_empty (s : string) : bool :=
  match s with
  | EmptyString => true
  | String c r => is_ws c && trim_is_empty r
  end.

(** [s.split('.')]: never empty; the empty string gives one empty segment. *)
Fixpoint split_dot_aux (cur : string) (s : string) : list string :=
  match s with
  | EmptyString => [cur]
  | String c r =>
      if Ascii.eqb c "."%char
      then cur :: split_dot_aux "" r
      else split_dot_aux (cur ++ String c "") r
  end.

Definition split_dot (s : string) : list string := split_dot_aux "" s.

(** ** Objects as association lists *)

(** [o[k]] on the own properties of a plain object. *)
Fixpoint objGet (ps : list (string * Value)) (k : string) : option Value :=
  match ps with
  | [] => None
  | (k', v) :: r => if String.eqb k' k then Some v else objGet r k
  end.

(** [o[k] = v]: overwrite in place, or append a new property. *)
Fixpoint objSet (ps : list (string * Value)) (k : string) (v : Value)
  : list (string * Value) :=
  match ps with
  | [] => [(k, v)]
  | (k', v') :: r =>
      if String.eqb k' k then (k', v) :: r else (k', v') :: objSet r k v
  end.

(** ** StateSecurity *)

Module StateSecurity.

(** [constructor(maxDepth = 50)] *)
Definition maxDepth : nat := 50.

(** [validateKey(key)] *)
Definition validateKey (key : string) : bool :=
  negb (String.eqb key "__proto__" || String.eqb key "constructor"
        || String.eqb key "prototype").

(** [sanitizeState(state)].  Primitives and functions are returned as they
    are, arrays are mapped, and an object is rebuilt property by property,
    skipping the three dangerous keys and the keys that trim to the empty
    string.  The function takes no depth argument and never consults
    [maxDepth]. *)
Fixpoint sanitizeState (state : Value) : Value :=
  match state with
  | VArr items => VArr (map sanitizeState items)
  | VObj props =>
      VObj ((fix entries (l : list (string * Value))
               (sanitized : list (string * Value)) :=
               match l with
               | [] => sanitized
               | (key, value) :: r =>
                   if String.eqb key "__proto__"
                      || String.eqb key "constructor"
                      || String.eqb key "prototype"
                   then entries r sanitized
                   else if trim_is_empty key
                   then entries r sanitized
                   else entries r (objSet sanitized key (sanitizeState value))
               end) props [])
  | _ => state
  end.

(** The loop of [sanitizeState] over [Object.entries(state)], named. *)
Fixpoint sanitizeEntries (l : list (string * Value))
  (sanitized : list (string * Value)) : list (string * Value) :=
  match l with
  | [] => sanitized
  | (key, value) :: r =>
      if String.eqb key "__proto__" || String.eqb key "constructor"
         || String.eqb key "prototype"
      then sanitizeEntries r sanitized
      else if trim_is_empty key
      then sanitizeEntries r sanitized
      else sanitizeEntries r (objSet sanitized key (sanitizeState value))
  end.

(** [validatePath(path)] for a string [path]. *)
Definition validatePath (path : string) : bool :=
  if trim_is_empty path then false
  else if (maxDepth <? List.length (split_dot path))%nat then false
  else true.

End StateSecurity.
Import StateSecurity.

(** ** Measures and predicates on values *)

(** Nesting depth: 0 for a primitive, one more than the deepest member for
    an array or an object. *)
Fixpoint depth (v : Value) : nat :=
  match v with
  | VArr items => S (fold_right (fun x m => Nat.max (depth x) m) 0%nat items)
  | VObj props =>
      S (fold_right (fun kv m => Nat.max (depth (snd kv)) m) 0%nat props)
  | _ => 0%nat
  end.

(** A key that [sanitizeState] keeps. *)
Definition key_kept (k : string) : bool :=
  validateKey k && negb (trim_is_empty k).

(** No dropped key occurs at any level of the value. *)
Fixpoint keys_safe (v : Value) : bool :=
  match v with
  | VArr items => forallb keys_safe items
  | VObj props => forallb (fun kv => key_kept (fst kv) && keys_safe (snd kv)) props
  | _ => true
  end.

(** The keys of an object are pairwise distinct. *)
Fixpoint distinct_keys (ks : list string) : bool :=
  match ks with
  | [] => true
  | k :: r => negb (existsb (String.eqb k) r) && distinct_keys r
  end.

(** Every object inside the value has pairwise distinct keys, as every
    JavaScript object has. *)
Fixpoint well_formed (v : Value) : bool :=
  match v with
  | VArr items => forallb well_formed items
  | VObj props =>
      distinct_keys (map fst props)
      && forallb (fun kv => well_formed (snd kv)) props
  | _ => true
  end.


(** ** JavaScript operators used by the store *)

(** [!!v] *)
Definition truthy (v : Value) : bool :=
  match v with
  | VUndef | VNull => false
  | VBool b => b
  | VNum n => negb (n =? 0)%Z
  | VStr s => negb (String.eqb s "")
  | VFun _ | VArr _ | VObj _ => true
  end.

(** [typeof v === 'object'] *)
Definition typeof_object (v : Value) : bool :=
  match v with
  | VNull | VArr _ | VObj _ => true
  | _ => false
  end.

Definition digit_of (c : ascii) : option N :=
  let n := N_of_ascii c in
  if ((48 <=? n) && (n <=? 57))%N then Some (n - 48)%N else None.

Fixpoint digits_value (s : string) (acc : N) : option N :=
  match s with
  | EmptyString => Some acc
  | String c r =>
      match digit_of c with
      | Some d => digits_value r (acc * 10 + d)%N
      | None => None
      end
  end.

(** A property name that is an array index: the canonical decimal form of
    an integer below 2^32 - 1. *)
Definition array_index (key : string) : option nat :=
  match key with
  | EmptyString => None
  | String c r =>
      if Ascii.eqb c "0"%char && negb (String.eqb r "") then None
      else match digits_value key 0%N with
           | Some n => if (n <? 4294967295)%N then Some (N.to_nat n) else None
           | None => None
           end
  end.

(** The methods every plain object inherits from [Object.prototype]. *)
Definition objectPrototypeMethods : list string :=
  [ "hasOwnProperty"; "isPrototypeOf"; "propertyIsEnumerable";
    "toLocaleString"; "toString"; "valueOf";
    "__defineGetter__"; "__defineSetter__";
    "__lookupGetter__"; "__lookupSetter__" ].

(** [o[key]] for a key that is not an own property of the plain object [o]:
    a built-in method, or [undefined].  [None] stands for a host value the
    embedding does not describe (the prototype object itself). *)
Definition objectPrototypeGet (key : string) : option Value :=
  if String.eqb key "__proto__" then None
  else if String.eqb key "constructor" then Some (VFun "Object")
  else if existsb (String.eqb key) objectPrototypeMethods
       then Some (VFun ("Object.prototype." ++ key))
       else Some VUndef.

(** [obj[key]] for a truthy receiver.  The result is [None] where the
    embedding does not describe the host: a property of a function, and a
    property that an array, a string, a number or a boolean would inherit
    from its prototype.  An array hole reads as [undefined]. *)
Definition getProp (obj : Value) (key : string) : option Value :=
  match obj with
  | VObj props =>
      match objGet props key with
      | Some v => Some v
      | None => objectPrototypeGet key
      end
  | VArr items =>
      match array_index key with
      | Some i => Some (nth i items VUndef)
      | None =>
          if String.eqb key "length"
          then Some (VNum (Z.of_nat (List.length items)))
          else None
      end
  | VStr s =>
      match array_index key with
      | Some i =>
          Some (match String.get i s with
                | Some c => VStr (String c "")
                | None => VUndef
                end)
      | None =>
          if String.eqb key "length"
          then Some (VNum (Z.of_nat (String.length s)))
          else None
      end
  | _ => None
  end.

(** [items[i] = v] on an array: overwrite, or extend with holes. *)
Fixpoint arraySet (items : list Value) (i : nat) (v : Value) : list Value :=
  match i, items with
  | O, [] => [v]
  | O, _ :: r => v :: r
  | S j, [] => VUndef :: arraySet [] j v
  | S j, x :: r => x :: arraySet r j v
  end.

(** [obj[key] = v] for an object or an array receiver, for a key that
    passed [validateKey].  [None]: an assignment the embedding does not
    describe (a named property or the length of an array, a receiver that
    is not an object). *)
Definition setProp (obj : Value) (key : string) (v : Value) : option Value :=
  match obj with
  | VObj props =>
      if String.eqb key "__proto__" then None
      else Some (VObj (objSet props key v))
  | VArr items =>
      match array_index key with
      | Some i => Some (VArr (arraySet items i v))
      | None => None
      end
  | _ => None
  end.

(** [old !== new] where [new] comes out of [sanitizeState]: an array or an
    object is then a fresh copy, different from every other value. *)
Definition differs (old new : Value) : bool :=
  match new, old with
  | VArr _, _ | VObj _, _ => true
  | VUndef, VUndef | VNull, VNull => false
  | VBool a, VBool b => negb (Bool.eqb a b)
  | VNum a, VNum b => negb (a =? b)%Z
  | VStr a, VStr b => negb (String.eqb a b)
  | VFun a, VFun b => negb (String.eqb a b)
  | _, _ => true
  end.

(** ** ReactiveState: reading and writing the value tree *)

Module Tree.

(** One step of the [reduce] of [get]:
    [if (!validateKey(key)) return undefined;
     return obj && obj[key] !== undefined ? obj[key] : undefined]. *)
Definition getStep (acc : option Value) (key : string) : option Value :=
  if negb (validateKey key) then Some VUndef
  else match acc with
       | None => None
       | Some obj => if truthy obj then getProp obj key else Some VUndef
       end.

(** [get(path)] on the tree [state]; [None] is the omitted argument. *)
Definition get (state : Value) (path : option string) : option Value :=
  match path with
  | None => Some state
  | Some p =>
      if String.eqb p "" then Some state
      else if negb (validatePath p) then Some VUndef
      else fold_left getStep (split_dot p) (Some state)
  end.

(** The [reduce] of [setByPath] over the keys before the last, followed by
    the assignment of the last key.  A key that fails [validateKey] is
    skipped ([return obj]); a key whose value is falsy or not an object is
    given a new empty object.  The JavaScript code mutates the objects in
    place; here every object on the way is rebuilt with its new member.
    The result is the new object together with [oldValue]. *)
Fixpoint walkAssign (obj : Value) (keys : list string) (lastKey : string)
  (sanitizedValue : Value) : option (Value * Value) :=
  match keys with
  | [] =>
      match getProp obj lastKey, setProp obj lastKey sanitizedValue with
      | Some oldValue, Some obj' => Some (obj', oldValue)
      | _, _ => None
      end
  | key :: rest =>
      if negb (validateKey key) then walkAssign obj rest lastKey sanitizedValue
      else
        match getProp obj key with
        | None => None
        | Some cur =>
            let child :=
              if negb (truthy cur) || negb (typeof_object cur)
              then VObj [] else cur in
            match walkAssign child rest lastKey sanitizedValue with
            | None => None
            | Some (child', oldValue) =>
                match setProp obj key child' with
                | Some obj' => Some (obj', oldValue)
                | None => None
                end
            end
        end
  end.

(** [setByPath(path, value)] on the tree [state]: the new tree, and the
    path to notify when the value changed.  [None]: the assignment is one
    the embedding does not describe (see [setProp]). *)
Definition setByPath (state : Value) (path : string) (value : Value)
  : option (Value * option string) :=
  if negb (validatePath path) then Some (state, None)
  else
    let keys := split_dot path in
    let lastKey := last keys "" in
    let keys := removelast keys in
    if negb (validateKey lastKey) then Some (state, None)
    else
      let sanitizedValue := sanitizeState value in
      match walkAssign state keys lastKey sanitizedValue with
      | None => None
      | Some (state', oldValue) =>
          Some (state',
                if differs oldValue sanitizedValue then Some path else None)
      end.

End Tree.



(** ** The engine: callbacks, registry, heap of root objects, timers *)

(** What [subscribe] returns: the closure that removes one subscriber from
    the set of one path, or the no-op closure of a refused subscription. *)
Definition Handle : Type := option (string * nat).

(** The body of a subscriber callback, as the sequence of calls it makes on
    the store.  [PThrow name] throws an error whose [name] is [name];
    [PLog] leaves a value in the trace. *)
Inductive Prog : Type :=
| PRet
| PThrow (name : string)
| PLog (v : Value) (k : Prog)
| PGet (path : option string) (k : Value -> Prog)
| PSet (path : string) (value : Value) (k : Prog)
| PMerge (partial : Value) (k : Prog)
| PSubscribe (path : string) (cb : Value -> string -> Prog) (k : Handle -> Prog)
| PUnsubscribe (h : Handle) (k : Prog).

(** [update(path, updater)]: [set(path, updater(get(path)))]. *)
Definition PUpdate (path : string) (updater : Value -> Value) (k : Prog) : Prog :=
  PGet (Some path) (fun currentValue => PSet path (updater currentValue) k).

(** The callbacks the registry holds: a callback of the application, or the
    closure that [ComputedManager.computed] subscribes to a dependency.
    [computeFn] reads the tree and nothing else. *)
Inductive Callback : Type :=
| CbProg (body : Value -> string -> Prog)
| CbComputed (name : string) (computeFn : Value -> Value).

Record Subscriber : Type := mkSubscriber {
  callback : Callback;
  id : nat                      (* Symbol('subscriber') *)
}.

(** A [Set] of subscribers: its identity and its members in insertion
    order. *)
Record SubSet : Type := mkSubSet {
  setId : nat;
  members : list Subscriber
}.

(** A property of a root object: the identity of the value it holds (it
    matters for objects, which two roots can share) and the value. *)
Definition Slot : Type := (nat * Value)%type.
Definition Root : Type := list (string * Slot).

(** A [setTimeout] task of [notifySubscribers]: the [state] argument it
    closed over (a root object) and the paths it will replay. *)
Record Timer : Type := mkTimer {
  timerState : nat;
  timerPending : list string
}.

(** What the trace records: a callback starts (with the key of the set it
    was taken from, its arguments), a callback ends, a callback logs. *)
Inductive Event : Type :=
| EvCall (scope : string) (subscriber : nat) (arg : Value) (changedPath : string)
| EvDone (subscriber : nat)
| EvLog (v : Value).

Record Engine : Type := mkEngine {
  roots : list Root;            (* every root object created so far *)
  state : nat;                  (* this.state: an index into [roots] *)
  nextId : nat;                 (* source of fresh identities *)
  subscribers : list (string * SubSet);       (* Map path -> Set *)
  maxSubscribers : nat;
  isUpdating : bool;
  pendingUpdates : list string;               (* Set of paths *)
  updateCount : nat;
  maxUpdatesPerCycle : nat;
  computedCache : list (string * Value);
  computedDependencies : list (string * list string);
  timers : list Timer;          (* pending setTimeout(..., 0) tasks *)
  trace : list Event            (* callback invocations, oldest first *)
}.

Definition with_heap (e : Engine) (rs : list Root) (st next : nat) : Engine :=
  mkEngine rs st next (subscribers e) (maxSubscribers e) (isUpdating e)
    (pendingUpdates e) (updateCount e) (maxUpdatesPerCycle e)
    (computedCache e) (computedDependencies e) (timers e) (trace e).

Definition with_subscribers (e : Engine) (subs : list (string * SubSet))
  (next : nat) : Engine :=
  mkEngine (roots e) (state e) next subs (maxSubscribers e) (isUpdating e)
    (pendingUpdates e) (updateCount e) (maxUpdatesPerCycle e)
    (computedCache e) (computedDependencies e) (timers e) (trace e).

Definition with_cycle (e : Engine) (updating : bool) (pending : list string)
  (count : nat) : Engine :=
  mkEngine (roots e) (state e) (nextId e) (subscribers e) (maxSubscribers e)
    updating pending count (maxUpdatesPerCycle e)
    (computedCache e) (computedDependencies e) (timers e) (trace e).

Definition with_computed (e : Engine) (cache : list (string * Value))
  (deps : list (string * list string)) : Engine :=
  mkEngine (roots e) (state e) (nextId e) (subscribers e) (maxSubscribers e)
    (isUpdating e) (pendingUpdates e) (updateCount e) (maxUpdatesPerCycle e)
    cache deps (timers e) (trace e).

Definition with_timers (e : Engine) (ts : list Timer) : Engine :=
  mkEngine (roots e) (state e) (nextId e) (subscribers e) (maxSubscribers e)
    (isUpdating e) (pendingUpdates e) (updateCount e) (maxUpdatesPerCycle e)
    (computedCache e) (computedDependencies e) ts (trace e).

Definition with_event (e : Engine) (ev : Event) : Engine :=
  mkEngine (roots e) (state e) (nextId e) (subscribers e) (maxSubscribers e)
    (isUpdating e) (pendingUpdates e) (updateCount e) (maxUpdatesPerCycle e)
    (computedCache e) (computedDependencies e) (timers e) (trace e ++ [ev]).

(** [new ReactiveState()], with the limits of [new SubscribersManager()]. *)
Definition newEngine : Engine :=
  mkEngine [[]] 0 0 [] 1000 false [] 0 100 [] [] [] [].

(** ** Maps and sets in insertion order *)

Fixpoint assocGet {A : Type} (m : list (string * A)) (k : string) : option A :=
  match m with
  | [] => None
  | (k', a) :: r => if String.eqb k' k then Some a else assocGet r k
  end.

(** [map.has(k)] *)
Definition assocHas {A : Type} (m : list (string * A)) (k : string) : bool :=
  match assocGet m k with
  | Some _ => true
  | None => false
  end.

Fixpoint assocSet {A : Type} (m : list (string * A)) (k : string) (a : A)
  : list (string * A) :=
  match m with
  | [] => [(k, a)]
  | (k', a') :: r =>
      if String.eqb k' k then (k', a) :: r else (k', a') :: assocSet r k a
  end.

Fixpoint assocDelete {A : Type} (m : list (string * A)) (k : string)
  : list (string * A) :=
  match m with
  | [] => []
  | (k', a') :: r =>
      if String.eqb k' k then r else (k', a') :: assocDelete r k
  end.

(** [set.add(p)] on a set of strings. *)
Definition setAdd (s : list string) (p : string) : list string :=
  if existsb (String.eqb p) s then s else s ++ [p].

Fixpoint replaceNth {A : Type} (l : list A) (n : nat) (x : A) : list A :=
  match l, n with
  | [], _ => []
  | _ :: r, O => x :: r
  | y :: r, S m => y :: replaceNth r m x
  end.

(** ** The heap of root objects *)

(** The content of a root object, as a value. *)
Definition treeOf (r : Root) : Value :=
  VObj (map (fun kv => (fst kv, snd (snd kv))) r).

Definition rootAt (e : Engine) (ref : nat) : Root := nth ref (roots e) [].

(** The tree [this.state] points to. *)
Definition currentTree (e : Engine) : Value := treeOf (rootAt e (state e)).

(** The properties of the rebuilt root, each with the identity it has:
    [tag0] for [k0], the identity it had in [root] for every other key. *)
Definition retag (root : Root) (props : list (string * Value)) (k0 : string)
  (tag0 : nat) : Root :=
  map (fun kv =>
         (fst kv,
          ((if String.eqb (fst kv) k0 then tag0
            else match assocGet root (fst kv) with
                 | Some slot => fst slot
                 | None => tag0
                 end),
           snd kv))) props.

(** An object mutated in place is seen through every root that holds it. *)
Definition propagate (tag : nat) (v : Value) (r : Root) : Root :=
  map (fun kv => if Nat.eqb (fst (snd kv)) tag then (fst kv, (tag, v)) else kv) r.

(** [{ ...root, ...sanitized }]: the properties of [root] keep their
    identity, those of [sanitized] are new. *)
Fixpoint spread (root : Root) (sanitized : list (string * Value)) (next : nat)
  : Root * nat :=
  match sanitized with
  | [] => (root, next)
  | (k, v) :: r => spread (assocSet root k (next, v)) r (S next)
  end.

(** ** SubscribersManager: the registry *)

Module Registry.

(** [Array.from(subscribers.values()).reduce((t, s) => t + s.size, 0)] *)
Definition totalSubscribers (subs : list (string * SubSet)) : nat :=
  fold_left (fun total kv => (total + List.length (members (snd kv)))%nat) subs 0%nat.

(** [subscribe(path, cb)] once the two arguments have the right types:
    refused when the registry is full, else a new subscriber is added at
    the end of the set of [path], which is created when missing. *)
Definition subscribe (e : Engine) (path : string) (cb : Callback)
  : Engine * Handle :=
  if (maxSubscribers e <=? totalSubscribers (subscribers e))%nat then (e, None)
  else
    let subs1 :=
      match assocGet (subscribers e) path with
      | Some _ => subscribers e
      | None => subscribers e ++ [(path, mkSubSet (nextId e) [])]
      end in
    let subscriber := mkSubscriber cb (S (nextId e)) in
    let subs2 :=
      match assocGet subs1 path with
      | Some s =>
          assocSet subs1 path (mkSubSet (setId s) (members s ++ [subscriber]))
      | None => subs1
      end in
    (with_subscribers e subs2 (S (S (nextId e))), Some (path, S (nextId e))).

(** [set.delete(subscriber)] *)
Definition deleteMember (s : SubSet) (sub : nat) : SubSet :=
  mkSubSet (setId s) (filter (fun m => negb (Nat.eqb (id m) sub)) (members s)).

(** The closure returned by [subscribe]. *)
Definition unsubscribe (e : Engine) (h : Handle) : Engine :=
  match h with
  | None => e
  | Some (path, sub) =>
      match assocGet (subscribers e) path with
      | None => e
      | Some pathSubscribers =>
          let s := deleteMember pathSubscribers sub in
          match members s with
          | [] => with_subscribers e (assocDelete (subscribers e) path) (nextId e)
          | _ => with_subscribers e (assocSet (subscribers e) path s) (nextId e)
          end
      end
  end.

(** The members of the set object [sid], wherever the map holds it; a set
    that is no longer in the map has lost all its members. *)
Fixpoint membersOf (subs : list (string * SubSet)) (sid : nat)
  : list Subscriber :=
  match subs with
  | [] => []
  | (_, s) :: r => if Nat.eqb (setId s) sid then members s else membersOf r sid
  end.

(** [set.delete(subscriber)] on the set object [sid]. *)
Definition deleteFrom (subs : list (string * SubSet)) (sid sub : nat)
  : list (string * SubSet) :=
  map (fun kv => if Nat.eqb (setId (snd kv)) sid
                 then (fst kv, deleteMember (snd kv) sub) else kv) subs.

(** The element [Set.prototype.forEach] visits next: the first member
    that was not visited yet. *)
Definition nextMember (subs : list (string * SubSet)) (sid : nat)
  (visited : list nat) : option Subscriber :=
  find (fun m => negb (existsb (Nat.eqb (id m)) visited)) (membersOf subs sid).

End Registry.

(** ** ReactiveState on the engine *)

Inductive Outcome : Type :=
| Returned
| Threw (name : string).

Module ReactiveState.

(** [get(path)] *)
Definition get (e : Engine) (path : option string) : option Value :=
  Tree.get (currentTree e) path.

(** The root object after the assignments of [setByPath]: [props] is its
    rebuilt content.  The first key the walk went through keeps the
    identity of its object when that object was mutated in place, and it
    is then seen changed through every root that shares it; a value
    assigned to a property of the root is new. *)
Definition writeBack (e : Engine) (keys : list string) (lastKey : string)
  (props : list (string * Value)) : Engine :=
  let root := rootAt e (state e) in
  let valid := filter validateKey keys in
  let k0 := hd lastKey valid in
  let inPlace :=
    match valid, assocGet root k0 with
    | _ :: _, Some slot => truthy (snd slot) && typeof_object (snd slot)
    | _, _ => false
    end in
  let tag0 :=
    match assocGet root k0 with
    | Some slot => if inPlace then fst slot else nextId e
    | None => nextId e
    end in
  let v0 := match objGet props k0 with Some v => v | None => VUndef end in
  let rs := if inPlace then map (propagate tag0 v0) (roots e) else roots e in
  with_heap e (replaceNth rs (state e) (retag root props k0 tag0))
    (state e) (S (nextId e)).

Section WithNotify.

(** [this.subscribersManager.notifySubscribers(state, get, changedPath)] *)
Variable notify : Engine -> nat -> string -> option Engine.

(** [notifySubscribers(changedPath)] *)
Definition notifySubscribers (e : Engine) (changedPath : string)
  : option Engine :=
  notify e (state e) changedPath.

(** [setByPath(path, value)] *)
Definition setByPath (e : Engine) (path : string) (value : Value)
  : option Engine :=
  if negb (validatePath path) then Some e
  else
    let keys := split_dot path in
    let lastKey := last keys "" in
    let keys := removelast keys in
    if negb (validateKey lastKey) then Some e
    else
      let sanitizedValue := sanitizeState value in
      match Tree.walkAssign (currentTree e) keys lastKey sanitizedValue with
      | Some (VObj props, oldValue) =>
          let e' := writeBack e keys lastKey props in
          if differs oldValue sanitizedValue
          then notifySubscribers e' path
          else Some e'
      | _ => None
      end.

(** [set(pathOrState)] with an object: the sanitized properties are
    merged into a new root object.  [None]: the argument is an array. *)
Definition setMerge (e : Engine) (partial : Value) : option Engine :=
  match sanitizeState partial with
  | VObj sanitizedState =>
      let (root', next) :=
        spread (rootAt e (state e)) sanitizedState (nextId e) in
      notifySubscribers
        (with_heap e (roots e ++ [root']) (List.length (roots e)) next) "*"
  | _ => None
  end.

(** The calls a callback makes, in order. *)
Fixpoint runProg (p : Prog) (e : Engine) : option (Engine * Outcome) :=
  match p with
  | PRet => Some (e, Returned)
  | PThrow name => Some (e, Threw name)
  | PLog v k => runProg k (with_event e (EvLog v))
  | PGet path k =>
      match get e path with
      | Some v => runProg (k v) e
      | None => None
      end
  | PSet path value k =>
      match setByPath e path value with
      | Some e' => runProg k e'
      | None => None
      end
  | PMerge partial k =>
      match setMerge e partial with
      | Some e' => runProg k e'
      | None => None
      end
  | PSubscribe path cb k =>
      let (e', h) := Registry.subscribe e path (CbProg cb) in
      runProg (k h) e'
  | PUnsubscribe h k => runProg k (Registry.unsubscribe e h)
  end.

(** [subscriber.callback(arg, changedPath)].  For the closure of
    [computed]: recompute, and when the result differs from the cached
    one store it and subscribe an empty callback to
    ['computed.' + name]. *)
Definition runCallback (scope : string) (s : Subscriber) (arg : Value)
  (changedPath : string) (e : Engine) : option (Engine * Outcome) :=
  let e0 := with_event e (EvCall scope (id s) arg changedPath) in
  let r :=
    match callback s with
    | CbProg body => runProg (body arg changedPath) e0
    | CbComputed name computeFn =>
        let newValue := computeFn (currentTree e0) in
        let oldValue :=
          match assocGet (computedCache e0) name with
          | Some v => v
          | None => VUndef
          end in
        if differs oldValue newValue
        then
          let e1 := with_computed e0 (assocSet (computedCache e0) name newValue)
                      (computedDependencies e0) in
          Some (fst (Registry.subscribe e1 ("computed." ++ name)
                       (CbProg (fun _ _ => PRet))), Returned)
        else Some (e0, Returned)
    end in
  match r with
  | Some (e', out) => Some (with_event e' (EvDone (id s)), out)
  | None => None
  end.

End WithNotify.

End ReactiveState.

(** ** SubscribersManager: dispatch *)

Module SubscribersManager.

(** [error.name === 'TypeError' || error.name === 'ReferenceError'] *)
Definition isDefect (out : Outcome) : bool :=
  match out with
  | Returned => false
  | Threw name => String.eqb name "TypeError" || String.eqb name "ReferenceError"
  end.

(** [set.forEach(subscriber => { try { ... } catch { ... } })] over the
    set object [sid].  The set is live: a member deleted before its turn
    is not visited, a member added during the loop is visited at the end.
    The result carries [subscribersToRemove]. *)
Fixpoint forEachLive (fuel : nat)
  (run : Subscriber -> Engine -> option (Engine * Outcome))
  (sid : nat) (visited toRemove : list nat) (e : Engine)
  : option (Engine * list nat) :=
  match Registry.nextMember (subscribers e) sid visited with
  | None => Some (e, toRemove)
  | Some s =>
      match fuel with
      | O => None
      | S fuel' =>
          match run s e with
          | None => None
          | Some (e', out) =>
              forEachLive fuel' run sid (visited ++ [id s])
                (if isDefect out then toRemove ++ [id s] else toRemove) e'
          end
      end
  end.

(** [subscribersToRemove.forEach(s => set.delete(s))] *)
Definition removeProblematic (e : Engine) (sid : nat) (toRemove : list nat)
  : Engine :=
  with_subscribers e
    (fold_left (fun subs sub => Registry.deleteFrom subs sid sub) toRemove
       (subscribers e))
    (nextId e).

Section WithNotify.

Variable notify : Engine -> nat -> string -> option Engine.
Variable fuel : nat.

(** [notifyPathSubscribers(changedPath, getValue)] *)
Definition notifyPathSubscribers (e : Engine) (changedPath : string)
  : option Engine :=
  match assocGet (subscribers e) changedPath with
  | None => None
  | Some pathSubscribers =>
      match forEachLive fuel
              (fun s e1 =>
                 match ReactiveState.get e1 (Some changedPath) with
                 | Some v =>
                     ReactiveState.runCallback notify changedPath s v
                       changedPath e1
                 | None => None
                 end)
              (setId pathSubscribers) [] [] e with
      | Some (e', toRemove) =>
          Some (removeProblematic e' (setId pathSubscribers) toRemove)
      | None => None
      end
  end.

(** [notifyGlobalSubscribers(state, changedPath)]: [state] is the root
    object the caller passed, read when the callback is invoked. *)
Definition notifyGlobalSubscribers (e : Engine) (stateRef : nat)
  (changedPath : string) : option Engine :=
  match assocGet (subscribers e) "*" with
  | None => None
  | Some globalSubscribers =>
      match forEachLive fuel
              (fun s e1 =>
                 ReactiveState.runCallback notify "*" s
                   (treeOf (rootAt e1 stateRef)) changedPath e1)
              (setId globalSubscribers) [] [] e with
      | Some (e', toRemove) =>
          Some (removeProblematic e' (setId globalSubscribers) toRemove)
      | None => None
      end
  end.

(** The body of [notifySubscribers] between [this.isUpdating = true]
    and the [finally]; no listener of ['state:change'] is registered
    on the event emitter. *)
Definition dispatch (e : Engine) (stateRef : nat) (changedPath : string)
  : option Engine :=
  match
    (if negb (String.eqb changedPath "*")
        && assocHas (subscribers e) changedPath
     then notifyPathSubscribers e changedPath
     else Some e)
  with
  | None => None
  | Some e1 =>
      if assocHas (subscribers e1) "*"
      then notifyGlobalSubscribers e1 stateRef changedPath
      else Some e1
  end.

End WithNotify.

(** [notifySubscribers(state, getValue, changedPath)].  [fuel] bounds the
    nesting of calls and the length of each [forEach]; the reentrant
    branch and the storm branch need none. *)
Fixpoint notifySubscribers (fuel : nat) (e : Engine) (stateRef : nat)
  (changedPath : string) : option Engine :=
  if isUpdating e
  then Some (with_cycle e (isUpdating e) (setAdd (pendingUpdates e) changedPath)
               (updateCount e))
  else
    let e1 := with_cycle e (isUpdating e) (pendingUpdates e) (S (updateCount e)) in
    if (maxUpdatesPerCycle e1 <? updateCount e1)%nat
    then Some (with_cycle e1 (isUpdating e1) [] 0)
    else
      match fuel with
      | O => None
      | S fuel' =>
          let e2 := with_cycle e1 true (pendingUpdates e1) (updateCount e1) in
          match dispatch (notifySubscribers fuel') fuel' e2 stateRef changedPath with
          | None => None
          | Some e3 =>
              let e4 := with_cycle e3 false (pendingUpdates e3) (updateCount e3) in
              match pendingUpdates e4 with
              | [] => Some (with_cycle e4 (isUpdating e4) [] 0)
              | pending =>
                  Some (with_timers
                          (with_cycle e4 (isUpdating e4) [] (updateCount e4))
                          (timers e4 ++ [mkTimer stateRef pending]))
              end
          end
      end.

(** The task given to [setTimeout]:
    [pending.forEach(path => this.notifySubscribers(state, getValue, path));
     this.updateCount = 0]. *)
Fixpoint replay (fuel : nat) (e : Engine) (stateRef : nat)
  (pending : list string) : option Engine :=
  match pending with
  | [] => Some (with_cycle e (isUpdating e) (pendingUpdates e) 0)
  | path :: rest =>
      match notifySubscribers fuel e stateRef path with
      | Some e' => replay fuel e' stateRef rest
      | None => None
      end
  end.

End SubscribersManager.

(** ** The calls of the application, and the timer queue *)

Module Api.

Definition get := ReactiveState.get.

(** [state.set(path, value)] *)
Definition set (fuel : nat) (e : Engine) (path : string) (value : Value)
  : option Engine :=
  ReactiveState.setByPath (SubscribersManager.notifySubscribers fuel) e path value.

(** [state.set(partial)] *)
Definition merge (fuel : nat) (e : Engine) (partial : Value) : option Engine :=
  ReactiveState.setMerge (SubscribersManager.notifySubscribers fuel) e partial.

(** [state.subscribe(path, cb)] and [state.subscribe(cb)] *)
Definition subscribe (e : Engine) (path : string) (cb : Value -> string -> Prog)
  : Engine * Handle :=
  Registry.subscribe e path (CbProg cb).

Definition subscribeAll (e : Engine) (cb : Value -> string -> Prog)
  : Engine * Handle :=
  Registry.subscribe e "*" (CbProg cb).

Definition unsubscribe := Registry.unsubscribe.

(** [state.computed(name, computeFn, dependencies)]: the dependencies
    are recorded, the value is computed once and cached, and one closure
    is subscribed to every dependency. *)
Definition computed (e : Engine) (name : string) (computeFn : Value -> Value)
  (dependencies : list string) : Engine :=
  let e1 :=
    with_computed e
      (assocSet (computedCache e) name (computeFn (currentTree e)))
      (assocSet (computedDependencies e) name dependencies) in
  fold_left
    (fun e2 dep => fst (Registry.subscribe e2 dep (CbComputed name computeFn)))
    dependencies e1.

(** [state.getComputed(name)] *)
Definition getComputed (e : Engine) (name : string) : Value :=
  match assocGet (computedCache e) name with
  | Some v => v
  | None => VUndef
  end.

(** The event loop runs the oldest pending timer task. *)
Definition runTimer (fuel : nat) (e : Engine) : option Engine :=
  match timers e with
  | [] => Some e
  | t :: rest =>
      SubscribersManager.replay fuel (with_timers e rest)
        (timerState t) (timerPending t)
  end.

Fixpoint runTimers (n : nat) (fuel : nat) (e : Engine) : option Engine :=
  match n with
  | O => Some e
  | S m =>
      match runTimer fuel e with
      | Some e' => runTimers m fuel e'
      | None => None
      end
  end.

End Api.

(** ** Reading the trace *)

Definition isCall (ev : Event) : bool :=
  match ev with
  | EvCall _ _ _ _ => true
  | _ => false
  end.

(** The number of callback invocations recorded in a trace. *)
Definition countCalls (tr : list Event) : nat := List.length (filter isCall tr).

(** ** Scenario: a subscriber that writes back to its own path *)

Definition toggle (v : Value) : Value :=
  match v with
  | VBool b => VBool (negb b)
  | _ => VBool true
  end.

(** [state.subscribe('a', v => state.set('a', !v))] *)
Definition writeBackCallback : Value -> string -> Prog :=
  fun v _ => PSet "a" (toggle v) PRet.

Definition stormEngine : Engine :=
  fst (Api.subscribe newEngine "a" writeBackCallback).

(** The engine between two timer tasks of the storm. *)
Definition stormState (b : bool) (tag next count : nat) (tr : list Event)
  : Engine :=
  mkEngine [[("a", (tag, VBool b))]] 0 next
    [("a", mkSubSet 0 [mkSubscriber (CbProg writeBackCallback) 1])]
    1000 false [] count 100 [] [] [mkTimer 0 ["a"]] tr.

(** ** Scenario: a subscriber that sets another path and reads it back *)



(** The index of the current root designates a root object. *)
Definition rootValid (e : Engine) : Prop :=
  (state e < List.length (roots e))%nat.

(** ** What a callback can do to the engine while a dispatch is active *)

(** The elementary changes made by the calls of a callback under
    [isUpdating = true]: a log, an assignment in the heap of roots, a path
    added to the pending set, a subscription, an unsubscription, a computed
    value cached. *)
Inductive CbStep : Engine -> Engine -> Prop :=
| step_log e v : CbStep e (with_event e (EvLog v))
| step_heap e rs st next :
    (nextId e <= next)%nat -> CbStep e (with_heap e rs st next)
| step_pending e path :
    CbStep e (with_cycle e (isUpdating e) (setAdd (pendingUpdates e) path)
                (updateCount e))
| step_subscribe e path cb : CbStep e (fst (Registry.subscribe e path cb))
| step_unsubscribe e h : CbStep e (Registry.unsubscribe e h)
| step_computed e cache : CbStep e (with_computed e cache (computedDependencies e)).

Inductive CbSteps : Engine -> Engine -> Prop :=
| steps_refl e : CbSteps e e
| steps_cons e1 e2 e3 : CbStep e1 e2 -> CbSteps e2 e3 -> CbSteps e1 e3.

(** ** Scenario: an object merge issued from a callback *)

(** [state.subscribe('a', () => { state.set({ b: 1 }); state.set('c', 2); })] *)
Definition mergeCallback : Value -> string -> Prog :=
  fun _ _ => PMerge (VObj [("b", VNum 1)]) (PSet "c" (VNum 2) PRet).

(** A callback that only receives its arguments. *)
Definition observer : Value -> string -> Prog := fun _ _ => PRet.

(** Subscriber 1 on ["a"] merges, subscriber 3 observes ["c"], subscriber 5
    observes every change. *)
Definition mergeEngine : Engine :=
  fst (Api.subscribeAll
         (fst (Api.subscribe
                 (fst (Api.subscribe newEngine "a" mergeCallback))
                 "c" observer))
         observer).

(** ** Successive updates of a computed value *)


(** [state.computed('double', () => state.get('x'), ['x'])] on a new
    store. *)
Definition getX (tree : Value) : Value :=
  match Tree.get tree (Some "x") with
  | Some v => v
  | None => VUndef
  end.

Definition computedEngine : Engine := Api.computed newEngine "double" getX ["x"].

(** The subscriber that [computed] registered on ["x"]. *)
Definition doubleSubscriber : Subscriber :=
  mkSubscriber (CbComputed "double" getX) 1.

(** The same engine once the tree holds [x = 1]. *)
Definition computedEngineX1 : Engine :=
  with_heap computedEngine [[("x", (2, VNum 1))]] 0 3.

(** ** Who is registered, who was called *)

Definition hasMember (i : nat) (s : SubSet) : bool :=
  existsb (fun m => Nat.eqb (id m) i) (members s).

(** Subscriber [i] is a member of some set of the registry. *)
Definition registered (i : nat) (subs : list (string * SubSet)) : bool :=
  existsb (fun kv => hasMember i (snd kv)) subs.



(** ** Everything the engine does, step by step *)

(** The elementary changes of the engine: those of a callback, the
    invocation of the next member of a live set, the end of a callback, the
    removal of a failing subscriber, the bookkeeping of the cycle and of
    the timer queue. *)
Inductive EngineStep : Engine -> Engine -> Prop :=
| estep_cb e e' : CbStep e e' -> EngineStep e e'
| estep_call e scope s arg p sid visited :
    Registry.nextMember (subscribers e) sid visited = Some s ->
    EngineStep e (with_event e (EvCall scope (id s) arg p))
| estep_done e i : EngineStep e (with_event e (EvDone i))
| estep_delete e sid sub :
    EngineStep e (with_subscribers e
                    (Registry.deleteFrom (subscribers e) sid sub) (nextId e))
| estep_cycle e u p c : EngineStep e (with_cycle e u p c)
| estep_timers e ts : EngineStep e (with_timers e ts).

Inductive EngineSteps : Engine -> Engine -> Prop :=
| esteps_refl e : EngineSteps e e
| esteps_cons e1 e2 e3 : EngineStep e1 e2 -> EngineSteps e2 e3 -> EngineSteps e1 e3.

(** ** Scenario: a subscriber that unsubscribes its neighbour *)

(** Subscribers 1 and 3 on ["a"]; the first removes the second and writes
    to ["a"] again. *)
Definition evictEngine : Engine :=
  fst (Api.subscribe
         (fst (Api.subscribe newEngine "a"
                 (fun v _ => PUnsubscribe (Some ("a", 3%nat))
                               (PSet "a" (toggle v) PRet))))
         "a" observer).


(** ** Order of the invocations *)



(** Strictly increasing identities, from [lo] on and below [hi]. *)
Fixpoint within (lo hi : nat) (ids : list nat) : bool :=
  match ids with
  | [] => true
  | i :: r => (lo <=? i)%nat && (i <? hi)%nat && within (S i) hi r
  end.

(** The registry as [subscribe] builds it: the sets have distinct
    identities, and in every set the members are in the order of their
    identities, all issued already. *)
Definition setsOrdered (next : nat) (subs : list (string * SubSet)) : Prop :=
  NoDup (map (fun kv => setId (snd kv)) subs)
  /\ Forall (fun kv => (setId (snd kv) < next)%nat
                       /\ within 0 next (map id (members (snd kv))) = true)
       subs.

Definition registryOrdered (e : Engine) : Prop :=
  setsOrdered (nextId e) (subscribers e).

(** ** Scenario: one subscriber of a path and one wildcard subscriber *)

(** [state.subscribe(s => ...)] first, then [state.subscribe('a.b', v => ...)]. *)
Definition orderEngine : Engine :=
  fst (Api.subscribe (fst (Api.subscribeAll newEngine observer)) "a.b" observer).

(** ** Predicates used by the further properties *)

(** No reserved key occurs at any level of the value. *)
Fixpoint reserved_free (v : Value) : bool :=
  match v with
  | VArr items => forallb reserved_free items
  | VObj props =>
      forallb (fun kv => validateKey (fst kv) && reserved_free (snd kv)) props
  | _ => true
  end.

(** The property of the root that [setByPath(path, ...)] assigns or
    descends into: the first segment that passes [validateKey]. *)
Definition writtenKey (path : string) : string :=
  hd (last (split_dot path) "")
    (filter validateKey (removelast (split_dot path))).


(** ** Scenario: a subscriber that subscribes two more *)

Definition greedyCallback : Value -> string -> Prog :=
  fun _ _ =>
    PSubscribe "a" observer (fun _ => PSubscribe "b" observer (fun _ => PRet)).

(** [new SubscribersManager(2)] with one subscriber on ["a"]. *)
Definition greedyEngine : Engine :=
  fst (Api.subscribe
         (mkEngine [[]] 0 0 [] 2 false [] 0 100 [] [] [] []) "a" greedyCallback).

(** ** Snapshots, reset *)

(** A value [JSON.stringify] leaves out of an object and writes as [null]
    in an array: [undefined] or a function. *)
Definition jsonAbsent (v : Value) : bool :=
  match v with
  | VUndef | VFun _ => true
  | _ => false
  end.

(** [JSON.parse(JSON.stringify(v))] for a value that is neither
    [undefined] nor a function: in an object the properties whose value is
    [undefined] or a function are left out, in an array such items become
    [null]. *)
Fixpoint jsonCopy (v : Value) : Value :=
  match v with
  | VArr items =>
      VArr (map (fun x => if jsonAbsent x then VNull else jsonCopy x) items)
  | VObj props =>
      VObj ((fix entries (l : list (string * Value))
               (parsed : list (string * Value)) :=
               match l with
               | [] => parsed
               | (key, value) :: r =>
                   if jsonAbsent value then entries r parsed
                   else entries r (objSet parsed key (jsonCopy value))
               end) props [])
  | _ => v
  end.

(** The loop of [jsonCopy] over the properties of an object, named. *)
Fixpoint jsonEntries (l : list (string * Value)) (parsed : list (string * Value))
  : list (string * Value) :=
  match l with
  | [] => parsed
  | (key, value) :: r =>
      if jsonAbsent value then jsonEntries r parsed
      else jsonEntries r (objSet parsed key (jsonCopy value))
  end.

(** [JSON.parse(JSON.stringify(v))]; [None]: [stringify] returns
    [undefined] and [parse] throws a [SyntaxError]. *)
Definition jsonClone (v : Value) : option Value :=
  if jsonAbsent v then None else Some (jsonCopy v).

(** Only what JSON can hold: no [undefined] and no function at any level. *)
Fixpoint json_only (v : Value) : bool :=
  match v with
  | VUndef | VFun _ => false
  | VArr items => forallb json_only items
  | VObj props => forallb (fun kv => json_only (snd kv)) props
  | _ => true
  end.

Module Lifecycle.

(** [getSnapshot()] *)
Definition getSnapshot (e : Engine) : option Value := jsonClone (currentTree e).

(** A new root object holding [props]. *)
Definition installRoot (e : Engine) (props : list (string * Value)) : Engine :=
  let (root', next) := spread [] props (nextId e) in
  with_heap e (roots e ++ [root']) (List.length (roots e)) next.

(** [loadSnapshot(snapshot)]: the copy becomes the tree as it is (it does
    not go through [sanitizeState]), then every wildcard subscriber is
    notified.  [None] also when the copy is not an object, which the heap
    of roots does not hold. *)
Definition loadSnapshot (notify : Engine -> nat -> string -> option Engine)
  (e : Engine) (snapshot : Value) : option Engine :=
  match jsonClone snapshot with
  | Some (VObj props) =>
      ReactiveState.notifySubscribers notify (installRoot e props) "*"
  | _ => None
  end.

(** [ComputedManager.clear()] *)
Definition clearComputed (e : Engine) : Engine := with_computed e [] [].

(** [reset(newInitialState)]: [None] (the omitted argument) and a falsy
    value give the empty tree.  [None] as a result: the sanitized value is
    not an object. *)
Definition reset (notify : Engine -> nat -> string -> option Engine)
  (e : Engine) (newInitialState : option Value) : option Engine :=
  let fresh :=
    match newInitialState with
    | Some v => if truthy v then sanitizeState v else VObj []
    | None => VObj []
    end in
  match fresh with
  | VObj props =>
      ReactiveState.notifySubscribers notify
        (clearComputed (installRoot e props)) "*"
  | _ => None
  end.

End Lifecycle.

(** The own properties of [{ ...a, ...b }]. *)
Definition spreadProps (a b : list (string * Value)) : list (string * Value) :=
  fold_left (fun acc kv => objSet acc (fst kv) (snd kv)) b a.

(** The properties of an object value; none for any other value. *)
Definition propsOf (v : Value) : list (string * Value) :=
  match v with
  | VObj props => props
  | _ => []
  end.

(** A notification of ["*"] reaches no callback: it is issued from inside
    a callback, or nothing is subscribed to every change. *)
Definition noListener (e : Engine) : Prop :=
  isUpdating e = true \/ assocHas (subscribers e) "*" = false.



(** ** Scenario: a subscriber that fails with a [TypeError] *)



(** ** VNodeCreator *)

Module VNodeCreator.

(** The [security] object given to the constructor, through the three
    methods the creator calls. *)
Record Security : Type := mkSecurity {
  escapeHtml : string -> string;
  isTagAllowed : string -> bool;
  sanitizeAttributes : Value -> Value
}.

(** What [createElement] returns: [null], a text node
    [{ type: 'text', content }], an element node
    [{ type: 'element', tag, attrs, children }], or an array of those. *)
Inductive VNode : Type :=
| NNull
| NText (content : string)
| NElement (tag : string) (attrs : Value) (children : list VNode)
| NArray (items : list VNode).

(** A call returns or throws an [Error]. *)
Inductive Created (A : Type) : Type :=
| Returns (a : A)
| Throws (message : string).
Arguments Returns {A} a.
Arguments Throws {A} message.

(** [Boolean(node)] for a node: only [null] is falsy. *)
Definition isNode (n : VNode) : bool :=
  match n with
  | NNull => false
  | _ => true
  end.

(** [items.map(child => create(child)).filter(Boolean)]: the children are
    created from left to right, and the first one that throws ends the
    call.  [None]: a call did not return. *)
Fixpoint mapFilter (create : Value -> option (Created VNode))
  (items : list Value) : option (Created (list VNode)) :=
  match items with
  | [] => Some (Returns [])
  | child :: rest =>
      match create child with
      | None => None
      | Some (Throws message) => Some (Throws message)
      | Some (Returns n) =>
          match mapFilter create rest with
          | None => None
          | Some (Throws message) => Some (Throws message)
          | Some (Returns ns) => Some (Returns (filter isNode [n] ++ ns))
          end
      end
  end.

(** The value of a destructured property with a default: the default is
    taken when the property is missing or [undefined]. *)
Definition withDefault (props : list (string * Value)) (k : string)
  (default : Value) : Value :=
  match objGet props k with
  | None | Some VUndef => default
  | Some v => v
  end.

Section Creator.

Variable security : Security.
Variable maxDepth : nat.

(** [String(n)] for a number and [s.toLowerCase().trim()], as the host
    computes them. *)
Variable numberToString : Z -> string.
Variable lowerTrim : string -> string.

(** [createElementNode(vnode, depth)], with [create] for
    [this.createElement]. *)
Definition createElementNode
  (create : Value -> nat -> option (Created VNode))
  (vnode : list (string * Value)) (depth : nat) : option (Created VNode) :=
  let tag := withDefault vnode "tag" VUndef in
  let attrs := withDefault vnode "attrs" (VObj []) in
  let children := withDefault vnode "children" (VArr []) in
  if negb (truthy tag)
  then Some (Throws "Virtual DOM node must have a tag property")
  else
    match tag with
    | VStr t =>
        let normalizedTag := lowerTrim t in
        if negb (isTagAllowed security normalizedTag)
        then create (VObj [("tag", VStr "div"); ("attrs", attrs);
                           ("children", children)]) depth
        else
          let sanitizedAttrs := sanitizeAttributes security attrs in
          match children with
          | VArr items =>
              match mapFilter (fun child => create child (S depth)) items with
              | None => None
              | Some (Throws message) => Some (Throws message)
              | Some (Returns ns) =>
                  Some (Returns (NElement normalizedTag sanitizedAttrs ns))
              end
          | _ =>
              match create children (S depth) with
              | None => None
              | Some (Throws message) => Some (Throws message)
              | Some (Returns n) =>
                  Some (Returns (NElement normalizedTag sanitizedAttrs
                                   (filter isNode [n])))
              end
          end
    | _ => Some (Throws "Tag must be a string")
    end.

(** [createElement(vnode, depth)].  [fuel] bounds the nesting of the
    calls; [None]: the calls nest deeper than that. *)
Fixpoint createElement (fuel : nat) (vnode : Value) (depth : nat)
  : option (Created VNode) :=
  match fuel with
  | O => None
  | S fuel' =>
      if (maxDepth <? depth)%nat then Some (Returns NNull)
      else
        match vnode with
        | VStr s => Some (Returns (NText (escapeHtml security s)))
        | VNum n =>
            Some (Returns (NText (escapeHtml security (numberToString n))))
        | VUndef | VNull | VBool false => Some (Returns NNull)
        | VArr items =>
            match mapFilter (fun child => createElement fuel' child (S depth))
                    items with
            | None => None
            | Some (Throws message) => Some (Throws message)
            | Some (Returns ns) => Some (Returns (NArray ns))
            end
        | VBool true | VFun _ => Some (Returns NNull)
        | VObj props => createElementNode (createElement fuel') props depth
        end
  end.

(** Every element of the tree has a tag that [isTagAllowed] accepts and
    attributes that went through [sanitizeAttributes]; every text went
    through [escapeHtml]. *)
Fixpoint vetted (n : VNode) : Prop :=
  match n with
  | NNull => True
  | NText content => exists s, content = escapeHtml security s
  | NElement tag attrs children =>
      isTagAllowed security tag = true
      /\ (exists a, attrs = sanitizeAttributes security a)
      /\ (fix all (l : list VNode) : Prop :=
            match l with
            | [] => True
            | x :: r => vetted x /\ all r
            end) children
  | NArray items =>
      (fix all (l : list VNode) : Prop :=
         match l with
         | [] => True
         | x :: r => vetted x /\ all r
         end) items
  end.

End Creator.

(** The number of nodes on the longest branch of the tree. *)
Fixpoint height (n : VNode) : nat :=
  match n with
  | NNull => 0
  | NText _ => 1
  | NElement _ _ children => S (fold_right (fun c m => Nat.max (height c) m) 0 children)
  | NArray items => S (fold_right (fun c m => Nat.max (height c) m) 0 items)
  end.

(** The nesting of a value: one more than that of what it holds. *)
Fixpoint rank (v : Value) : nat :=
  match v with
  | VArr items => S (fold_right (fun c m => Nat.max (rank c) m) 0 items)
  | VObj props =>
      S (fold_right (fun kv m => Nat.max (rank (snd kv)) m) 0 props)
  | _ => 1
  end.

End VNodeCreator.

(** ** Scenario: a creator that allows two tags *)

(** A [security] object that allows [div] and [p] only and leaves texts
    and attributes as they are. *)
Definition plainSecurity : VNodeCreator.Security :=
  VNodeCreator.mkSecurity (fun s => s)
    (fun t => existsb (String.eqb t) ["div"; "p"]) (fun a => a).

(** A [security] object that allows [span] only. *)
Definition spanSecurity : VNodeCreator.Security :=
  VNodeCreator.mkSecurity (fun s => s) (fun t => String.eqb t "span")
    (fun a => a).

(** [{ tag: 'script', children: ['x', { tag: 'p', children: 'y' }] }] *)
Definition scriptNode : Value :=
  VObj [("tag", VStr "script");
        ("children", VArr [VStr "x";
                           VObj [("tag", VStr "p"); ("children", VStr "y")]])].

(** * Theorems *)

(** ** The sanitizer *)

Lemma sanitizeState_obj (props : list (string * Value)) :
  sanitizeState (VObj props) = VObj (sanitizeEntries props []).
Proof. reflexivity. Qed.

Lemma objSet_forallb (P : string * Value -> bool) ps k v :
  forallb P ps = true -> P (k, v) = true ->
  (forall k' a b, String.eqb k' k = true -> P (k', a) = true -> P (k', b) = P (k, b)) ->
  forallb P (objSet ps k v) = true.
Proof.
  intros Hps Hkv Hk. induction ps as [|[k' v'] r IH]; simpl in *.
  - now rewrite Hkv.
  - apply andb_true_iff in Hps as [H1 H2].
    destruct (String.eqb k' k) eqn:E; simpl.
    + apply String.eqb_eq in E. subst k'. now rewrite Hkv, H2.
    + now rewrite H1, IH.
Qed.

Lemma sanitizeEntries_safe l :
  Forall (fun kv => keys_safe (sanitizeState (snd kv)) = true) l ->
  forall acc,
    forallb (fun kv => key_kept (fst kv) && keys_safe (snd kv)) acc = true ->
    forallb (fun kv => key_kept (fst kv) && keys_safe (snd kv))
      (sanitizeEntries l acc) = true.
Proof.
  induction 1 as [|[k v] r Hv Hr IH]; intros acc Hacc; simpl; auto.
  destruct (String.eqb k "__proto__" || String.eqb k "constructor"
            || String.eqb k "prototype") eqn:Er; auto.
  destruct (trim_is_empty k) eqn:Et; auto.
  apply IH. apply objSet_forallb; auto.
  - simpl in *. unfold key_kept, validateKey. now rewrite Er, Et, Hv.
  - intros k' a b E _. apply String.eqb_eq in E. now subst.
Qed.

Lemma sanitizeState_keys_safe (v : Value) : keys_safe (sanitizeState v) = true.
Proof.
  induction v as [| | | | | |xs IH|ps IH] using Value_deep_ind; try reflexivity.
  - simpl. induction IH as [|x r Hx Hr IHr]; simpl; auto.
    now rewrite Hx, IHr.
  - rewrite sanitizeState_obj. simpl. now apply sanitizeEntries_safe.
Qed.

Lemma objSet_fresh ps k v :
  existsb (String.eqb k) (map fst ps) = false -> objSet ps k v = ps ++ [(k, v)].
Proof.
  induction ps as [|[k' v'] r IH]; simpl; intros H; auto.
  apply orb_false_iff in H as [H1 H2].
  rewrite String.eqb_sym, H1. now rewrite IH.
Qed.

Lemma existsb_app_false (k : string) (a b : list string) :
  existsb (String.eqb k) (a ++ b) = false <->
  existsb (String.eqb k) a = false /\ existsb (String.eqb k) b = false.
Proof. rewrite existsb_app. apply orb_false_iff. Qed.

Lemma sanitizeEntries_clean l :
  Forall (fun kv => sanitizeState (snd kv) = snd kv) l ->
  forallb (fun kv => key_kept (fst kv)) l = true ->
  forall acc,
    distinct_keys (map fst (acc ++ l)) = true ->
    sanitizeEntries l acc = acc ++ l.
Proof.
  induction 1 as [|[k v] r Hv Hr IH]; intros Hk acc Hd; simpl.
  - now rewrite app_nil_r.
  - simpl in Hk. apply andb_true_iff in Hk as [Hk1 Hk2].
    unfold key_kept, validateKey in Hk1.
    apply andb_true_iff in Hk1 as [Ha Hb].
    apply negb_true_iff in Ha, Hb. rewrite Ha, Hb. simpl in Hv. rewrite Hv.
    assert (Hfresh : existsb (String.eqb k) (map fst acc) = false).
    { clear - Hd. induction acc as [|[k' v'] a IHa]; simpl in *; auto.
      apply andb_true_iff in Hd as [H1 H2]. apply negb_true_iff in H1.
      rewrite map_app in H1. simpl in H1.
      apply existsb_app_false in H1 as [H1a H1b]. simpl in H1b.
      apply orb_false_iff in H1b as [H1b _].
      rewrite String.eqb_sym, H1b. simpl. auto. }
    rewrite objSet_fresh by assumption.
    rewrite IH; auto.
    + now rewrite <- app_assoc.
    + now rewrite <- app_assoc.
Qed.

Lemma sanitizeState_clean (v : Value) :
  keys_safe v = true -> well_formed v = true -> sanitizeState v = v.
Proof.
  induction v as [| | | | | |xs IH|ps IH] using Value_deep_ind; try reflexivity.
  - simpl. intros Hs Hw. f_equal.
    induction IH as [|x r Hx Hr IHr]; simpl in *; auto.
    apply andb_true_iff in Hs as [? ?]. apply andb_true_iff in Hw as [? ?].
    f_equal; auto.
  - rewrite sanitizeState_obj. simpl. intros Hs Hw.
    apply andb_true_iff in Hw as [Hd Hw]. f_equal.
    apply (sanitizeEntries_clean ps) with (acc := []); auto.
    + clear Hd. induction IH as [|[k x] r Hx Hr IHr]; constructor; simpl in *.
      * apply andb_true_iff in Hs as [Hs _]. apply andb_true_iff in Hs as [_ Hs].
        apply andb_true_iff in Hw as [Hw _]. auto.
      * apply andb_true_iff in Hs as [_ Hs]. apply andb_true_iff in Hw as [_ Hw].
        auto.
    + clear - Hs. induction ps as [|[k x] r IHr]; simpl in *; auto.
      apply andb_true_iff in Hs as [Hs1 Hs2]. apply andb_true_iff in Hs1 as [-> _].
      simpl. auto.
Qed.






(** ** The value tree: [get] and [setByPath] *)

Lemma split_dot_aux_nonempty cur s : split_dot_aux cur s <> [].
Proof.
  revert cur. induction s as [|c r IH]; intros cur; simpl; [discriminate|].
  destruct (Ascii.eqb c "."%char); [discriminate|apply IH].
Qed.

Lemma split_dot_nonempty s : split_dot s <> [].
Proof. apply split_dot_aux_nonempty. Qed.


Lemma objGet_objSet_same ps k v : objGet (objSet ps k v) k = Some v.
Proof.
  induction ps as [|[k' v'] r IH]; simpl.
  - now rewrite String.eqb_refl.
  - destruct (String.eqb k' k) eqn:E; simpl; rewrite E; auto.
Qed.

Lemma objGet_objSet_other ps k k' v :
  String.eqb k k' = false -> objGet (objSet ps k v) k' = objGet ps k'.
Proof.
  intros Hk. induction ps as [|[k0 v0] r IH]; simpl.
  - now rewrite Hk.
  - destruct (String.eqb k0 k) eqn:E; simpl.
    + apply String.eqb_eq in E. subst k0. now rewrite Hk.
    + now rewrite IH.
Qed.













(** A path whose last segment is reserved is rejected: nothing changes and
    nobody is notified. *)
Lemma setByPath_reserved_last_segment state path v :
  validateKey (last (split_dot path) "") = false ->
  Tree.setByPath state path v = Some (state, None).
Proof.
  intros H. unfold Tree.setByPath. destruct (validatePath path); simpl; auto.
  now rewrite H.
Qed.

(** C1: [set("__proto__.x", 1)] is not rejected.  The reserved segment is
    skipped and the assignment goes to the next segment: the empty tree
    gains the key [x], and the subscribers of the path are notified. *)
Theorem setByPath_reserved_segment_writes_x :
  Tree.setByPath (VObj []) "__proto__.x" (VNum 1)
  = Some (VObj [("x", VNum 1)], Some "__proto__.x")
  /\ Tree.get (VObj [("x", VNum 1)]) (Some "x") = Some (VNum 1)
  /\ validateKey "__proto__" = false.
Proof. repeat split. Qed.






(** ** The storm breaker *)

Lemma countCalls_app tr1 tr2 :
  countCalls (tr1 ++ tr2) = (countCalls tr1 + countCalls tr2)%nat.
Proof. unfold countCalls. now rewrite filter_app, length_app. Qed.

Lemma storm_timer_step b tag next count tr :
  (count <= 1)%nat ->
  Api.runTimer 2 (stormState b tag next count tr)
  = Some (stormState (negb b) next (S next) 0
            ((tr ++ [EvCall "a" 1 (VBool b) "a"]) ++ [EvDone 1])).
Proof.
  intros H. destruct count as [|[|c]]; [| |lia]; destruct b; vm_compute; reflexivity.
Qed.

Lemma storm_timers_run n : forall b tag next count tr,
  (count <= 1)%nat ->
  exists b' tag' next' count' tr',
    Api.runTimers n 2 (stormState b tag next count tr)
    = Some (stormState b' tag' next' count' tr')
    /\ (count' <= 1)%nat
    /\ countCalls tr' = (countCalls tr + n)%nat.
Proof.
  induction n as [|n IH]; intros b tag next count tr Hc.
  - exists b, tag, next, count, tr. simpl. repeat split; auto; lia.
  - cbn [Api.runTimers]. rewrite storm_timer_step by assumption.
    destruct (IH (negb b) next (S next) 0%nat
                ((tr ++ [EvCall "a" 1 (VBool b) "a"]) ++ [EvDone 1]))
      as (b' & tag' & next' & count' & tr' & Hrun & Hc' & Hn); [lia|].
    exists b', tag', next', count', tr'. repeat split; auto.
    rewrite Hn, !countCalls_app. unfold countCalls. simpl. lia.
Qed.

(** C2: the bound is not enforced across deferred passes.  A subscriber of
    ["a"] that writes back to ["a"] is called once by the [set] and once
    more by every timer task; each task ends with [updateCount = 0] and a
    new task queued, so after [n] tasks the subscriber was called [n + 1]
    times, for every [n], and the breaker has never tripped. *)
Theorem storm_breaker_never_trips :
  Api.set 2 stormEngine "a" (VBool false)
  = Some (stormState true 3 4 1 [EvCall "a" 1 (VBool false) "a"; EvDone 1])
  /\ forall n, exists e,
       Api.runTimers n 2
         (stormState true 3 4 1 [EvCall "a" 1 (VBool false) "a"; EvDone 1])
       = Some e
       /\ countCalls (trace e) = S n
       /\ timers e = [mkTimer 0 ["a"]]
       /\ (updateCount e <= 1)%nat
       /\ maxUpdatesPerCycle e = 100%nat.
Proof.
  split; [vm_compute; reflexivity|].
  intros n.
  destruct (storm_timers_run n true 3 4 1
              [EvCall "a" 1 (VBool false) "a"; EvDone 1])
    as (b' & tag' & next' & count' & tr' & Hrun & Hc' & Hn); [lia|].
  eexists. split; [exact Hrun|]. simpl. repeat split; auto.
Qed.

(** ** A [set] issued during a dispatch *)

Lemma notifySubscribers_reentrant fuel e stateRef changedPath :
  isUpdating e = true ->
  SubscribersManager.notifySubscribers fuel e stateRef changedPath
  = Some (with_cycle e true (setAdd (pendingUpdates e) changedPath)
            (updateCount e)).
Proof. intros H. destruct fuel; simpl; rewrite H; reflexivity. Qed.



Lemma length_replaceNth {A : Type} (l : list A) n x :
  List.length (replaceNth l n x) = List.length l.
Proof.
  revert n. induction l as [|y r IH]; intros [|n]; simpl; auto.
Qed.


Lemma rootValid_writeBack e keys lastKey props :
  rootValid e -> rootValid (ReactiveState.writeBack e keys lastKey props).
Proof.
  unfold rootValid, ReactiveState.writeBack. simpl. intros Hv.
  rewrite length_replaceNth.
  destruct (match filter validateKey keys with [] => _ | _ :: _ => _ end);
    [rewrite length_map|]; exact Hv.
Qed.







(** ** Callbacks under the dispatch flag *)

Lemma CbSteps_trans e1 e2 e3 : CbSteps e1 e2 -> CbSteps e2 e3 -> CbSteps e1 e3.
Proof. induction 1; auto. intros. econstructor; eauto. Qed.

Lemma CbSteps_one e1 e2 : CbStep e1 e2 -> CbSteps e1 e2.
Proof. intros. econstructor; [eassumption|constructor]. Qed.

Lemma CbStep_isUpdating e1 e2 : CbStep e1 e2 -> isUpdating e2 = isUpdating e1.
Proof.
  destruct 1; simpl; auto.
  - unfold Registry.subscribe.
    destruct (maxSubscribers e <=? _)%nat; reflexivity.
  - unfold Registry.unsubscribe. destruct h as [[p i]|]; auto.
    destruct (assocGet (subscribers e) p); auto.
    destruct (members _); reflexivity.
Qed.

Lemma CbSteps_isUpdating e1 e2 : CbSteps e1 e2 -> isUpdating e2 = isUpdating e1.
Proof.
  induction 1; auto. rewrite IHCbSteps. now apply CbStep_isUpdating.
Qed.

Lemma step_pending_true e path :
  isUpdating e = true ->
  CbStep e (with_cycle e true (setAdd (pendingUpdates e) path) (updateCount e)).
Proof. intros H. pose proof (step_pending e path) as S. now rewrite H in S. Qed.

Lemma spread_next root sanitized next :
  (next <= snd (spread root sanitized next))%nat.
Proof.
  revert root next. induction sanitized as [|[k v] r IH]; intros; simpl; auto.
  specialize (IH (assocSet root k (next, v)) (S next)). lia.
Qed.

Lemma setByPath_under_flag fuel e p v e' :
  isUpdating e = true ->
  ReactiveState.setByPath (SubscribersManager.notifySubscribers fuel) e p v
  = Some e' ->
  CbSteps e e'.
Proof.
  intros Hu. unfold ReactiveState.setByPath.
  destruct (negb (validatePath p)); [intros [= <-]; constructor|].
  destruct (negb (validateKey _)); [intros [= <-]; constructor|].
  destruct (Tree.walkAssign _ _ _ _) as [[o old]|]; [|discriminate].
  destruct o; try discriminate.
  set (e1 := ReactiveState.writeBack _ _ _ _).
  assert (H1 : CbStep e e1) by (apply step_heap; lia).
  destruct (differs old _).
  - unfold ReactiveState.notifySubscribers.
    rewrite notifySubscribers_reentrant
      by (rewrite (CbStep_isUpdating _ _ H1); exact Hu).
    intros [= <-]. econstructor; [exact H1|].
    change (CbSteps e1 (with_cycle e1 true (setAdd (pendingUpdates e1) p)
                          (updateCount e1))).
    apply CbSteps_one, step_pending_true.
    rewrite (CbStep_isUpdating _ _ H1). exact Hu.
  - intros [= <-]. now apply CbSteps_one.
Qed.

Lemma setMerge_under_flag fuel e partial e' :
  isUpdating e = true ->
  ReactiveState.setMerge (SubscribersManager.notifySubscribers fuel) e partial
  = Some e' ->
  CbSteps e e'.
Proof.
  intros Hu. unfold ReactiveState.setMerge.
  destruct (sanitizeState partial); try discriminate.
  pose proof (spread_next (rootAt e (state e)) props (nextId e)) as Hn.
  destruct (spread (rootAt e (state e)) props (nextId e)) as [root' next].
  simpl in Hn.
  set (e1 := with_heap e _ _ _).
  assert (H1 : CbStep e e1) by (apply step_heap; exact Hn).
  unfold ReactiveState.notifySubscribers.
  rewrite notifySubscribers_reentrant by exact Hu.
  intros [= <-]. econstructor; [exact H1|].
  change (CbSteps e1 (with_cycle e1 true (setAdd (pendingUpdates e1) "*")
                        (updateCount e1))).
  apply CbSteps_one, step_pending_true. exact Hu.
Qed.

Lemma runProg_under_flag fuel p : forall e e' out,
  isUpdating e = true ->
  ReactiveState.runProg (SubscribersManager.notifySubscribers fuel) p e
  = Some (e', out) ->
  CbSteps e e'.
Proof.
  induction p as [|name|v k IH|path k IH|path value k IH|partial k IH
                  |path cb IHcb k IH|h k IH]; intros e e' out Hu; simpl.
  - intros [= <- _]. constructor.
  - intros [= <- _]. constructor.
  - intros H. econstructor; [apply step_log|]. eapply IH; eauto.
  - destruct (ReactiveState.get e path); [|discriminate]. eapply IH; eauto.
  - destruct (ReactiveState.setByPath _ e path value) as [e1|] eqn:Es;
      [|discriminate].
    intros H. pose proof (setByPath_under_flag _ _ _ _ _ Hu Es) as H1.
    eapply CbSteps_trans; [exact H1|]. eapply IH; eauto.
    rewrite (CbSteps_isUpdating _ _ H1). exact Hu.
  - destruct (ReactiveState.setMerge _ e partial) as [e1|] eqn:Es;
      [|discriminate].
    intros H. pose proof (setMerge_under_flag _ _ _ _ Hu Es) as H1.
    eapply CbSteps_trans; [exact H1|]. eapply IH; eauto.
    rewrite (CbSteps_isUpdating _ _ H1). exact Hu.
  - pose proof (step_subscribe e path (CbProg cb)) as H1.
    destruct (Registry.subscribe e path (CbProg cb)) as [e1 h]. simpl in H1.
    intros H. econstructor; [exact H1|]. eapply IH; eauto.
    rewrite (CbStep_isUpdating _ _ H1). exact Hu.
  - intros H. pose proof (step_unsubscribe e h) as H1.
    econstructor; [exact H1|]. eapply IH; eauto.
    rewrite (CbStep_isUpdating _ _ H1). exact Hu.
Qed.

Lemma runCallback_under_flag fuel scope s arg p e e' out :
  isUpdating e = true ->
  ReactiveState.runCallback (SubscribersManager.notifySubscribers fuel)
    scope s arg p e = Some (e', out) ->
  exists e1,
    CbSteps (with_event e (EvCall scope (id s) arg p)) e1
    /\ e' = with_event e1 (EvDone (id s)).
Proof.
  intros Hu. unfold ReactiveState.runCallback.
  set (e0 := with_event e (EvCall scope (id s) arg p)).
  destruct (callback s) as [body|name computeFn].
  - destruct (ReactiveState.runProg _ (body arg p) e0) as [[e1 o]|] eqn:Er;
      [|discriminate].
    intros [= <- _]. exists e1. split; auto.
    eapply runProg_under_flag; eauto.
  - destruct (differs _ _).
    + intros [= <- _]. eexists. split; [|reflexivity].
      econstructor; [apply step_computed|].
      apply CbSteps_one, step_subscribe.
    + intros [= <- _]. exists e0. split; [constructor|reflexivity].
Qed.

(** ** Relations that every step of a dispatch respects *)

Section DispatchStable.

Variable R : Engine -> Engine -> Prop.
Hypothesis R_refl : forall e, R e e.
Hypothesis R_trans : forall e1 e2 e3, R e1 e2 -> R e2 e3 -> R e1 e3.
Hypothesis R_cb : forall e e', CbStep e e' -> R e e'.
Hypothesis R_call : forall e scope s arg p sid visited,
  Registry.nextMember (subscribers e) sid visited = Some s ->
  R e (with_event e (EvCall scope (id s) arg p)).
Hypothesis R_done : forall e i, R e (with_event e (EvDone i)).
Hypothesis R_delete : forall e sid sub,
  R e (with_subscribers e (Registry.deleteFrom (subscribers e) sid sub) (nextId e)).
Hypothesis R_cycle : forall e u p c, R e (with_cycle e u p c).
Hypothesis R_timers : forall e ts, R e (with_timers e ts).

Lemma stable_CbSteps e e' : CbSteps e e' -> R e e'.
Proof. induction 1; eauto. Qed.

Lemma stable_runCallback fuel scope s arg p e e' out sid visited :
  isUpdating e = true ->
  Registry.nextMember (subscribers e) sid visited = Some s ->
  ReactiveState.runCallback (SubscribersManager.notifySubscribers fuel)
    scope s arg p e = Some (e', out) ->
  R e e' /\ isUpdating e' = true.
Proof.
  intros Hu Hm Hr.
  destruct (runCallback_under_flag _ _ _ _ _ _ _ _ Hu Hr) as (e1 & Hs & ->).
  split.
  - eapply R_trans; [eapply R_call; eauto|].
    eapply R_trans; [apply stable_CbSteps; eauto|]. apply R_done.
  - simpl. rewrite (CbSteps_isUpdating _ _ Hs). exact Hu.
Qed.

Lemma stable_forEachLive fuel run sid :
  (forall s e1 e2 out visited,
      isUpdating e1 = true ->
      Registry.nextMember (subscribers e1) sid visited = Some s ->
      run s e1 = Some (e2, out) -> R e1 e2 /\ isUpdating e2 = true) ->
  forall visited toRemove e e' rm,
    isUpdating e = true ->
    SubscribersManager.forEachLive fuel run sid visited toRemove e
    = Some (e', rm) ->
    R e e' /\ isUpdating e' = true.
Proof.
  intros Hrun. induction fuel as [|fuel IH]; intros visited toRemove e e' rm Hu;
    simpl.
  - destruct (Registry.nextMember _ _ _); [discriminate|].
    intros [= <- _]. auto.
  - destruct (Registry.nextMember _ _ _) as [s|] eqn:Hm.
    2:{ intros [= <- _]. auto. }
    destruct (run s e) as [[e1 out]|] eqn:Hr; [|discriminate].
    intros H. destruct (Hrun _ _ _ _ _ Hu Hm Hr) as [H1 Hu1].
    destruct (IH _ _ _ _ _ Hu1 H) as [H2 Hu2]. eauto.
Qed.

Lemma stable_removeProblematic e sid toRemove :
  R e (SubscribersManager.removeProblematic e sid toRemove)
  /\ isUpdating (SubscribersManager.removeProblematic e sid toRemove)
     = isUpdating e.
Proof.
  split; [|reflexivity].
  unfold SubscribersManager.removeProblematic.
  assert (Hid : with_subscribers e (subscribers e) (nextId e) = e)
    by (destruct e; reflexivity).
  revert e Hid. induction toRemove as [|x r IH]; intros e Hid; simpl.
  - rewrite Hid. apply R_refl.
  - eapply R_trans; [apply (R_delete e sid x)|].
    specialize (IH (with_subscribers e
                      (Registry.deleteFrom (subscribers e) sid x) (nextId e))
                  eq_refl).
    exact IH.
Qed.

Lemma stable_notifyPathSubscribers fuel fuel' e p e' :
  isUpdating e = true ->
  SubscribersManager.notifyPathSubscribers
    (SubscribersManager.notifySubscribers fuel) fuel' e p = Some e' ->
  R e e' /\ isUpdating e' = true.
Proof.
  intros Hu. unfold SubscribersManager.notifyPathSubscribers.
  destruct (assocGet (subscribers e) p) as [ps|]; [|discriminate].
  destruct (SubscribersManager.forEachLive _ _ _ _ _ _) as [[e1 rm]|] eqn:Hf;
    [|discriminate].
  intros [= <-].
  apply stable_forEachLive in Hf; auto.
  - destruct Hf as [H1 Hu1].
    destruct (stable_removeProblematic e1 (setId ps) rm) as [H2 Hu2].
    split; [eauto|congruence].
  - intros s e2 e3 out visited Hu2 Hm.
    destruct (ReactiveState.get e2 (Some p)); [|discriminate].
    eapply stable_runCallback; eauto.
Qed.

Lemma stable_notifyGlobalSubscribers fuel fuel' e st p e' :
  isUpdating e = true ->
  SubscribersManager.notifyGlobalSubscribers
    (SubscribersManager.notifySubscribers fuel) fuel' e st p = Some e' ->
  R e e' /\ isUpdating e' = true.
Proof.
  intros Hu. unfold SubscribersManager.notifyGlobalSubscribers.
  destruct (assocGet (subscribers e) "*") as [gs|]; [|discriminate].
  destruct (SubscribersManager.forEachLive _ _ _ _ _ _) as [[e1 rm]|] eqn:Hf;
    [|discriminate].
  intros [= <-].
  apply stable_forEachLive in Hf; auto.
  - destruct Hf as [H1 Hu1].
    destruct (stable_removeProblematic e1 (setId gs) rm) as [H2 Hu2].
    split; [eauto|congruence].
  - intros s e2 e3 out visited Hu2 Hm. eapply stable_runCallback; eauto.
Qed.

Lemma stable_dispatch fuel fuel' e st p e' :
  isUpdating e = true ->
  SubscribersManager.dispatch (SubscribersManager.notifySubscribers fuel) fuel'
    e st p = Some e' ->
  R e e' /\ isUpdating e' = true.
Proof.
  intros Hu. unfold SubscribersManager.dispatch.
  destruct (negb (String.eqb p "*") && assocHas (subscribers e) p).
  - destruct (SubscribersManager.notifyPathSubscribers _ _ e p) as [e1|] eqn:Hp;
      [|discriminate].
    destruct (stable_notifyPathSubscribers _ _ _ _ _ Hu Hp) as [H1 Hu1].
    destruct (assocHas (subscribers e1) "*").
    + intros Hg.
      destruct (stable_notifyGlobalSubscribers _ _ _ _ _ _ Hu1 Hg) as [H2 Hu2].
      eauto.
    + intros [= <-]. auto.
  - destruct (assocHas (subscribers e) "*").
    + intros Hg. eapply stable_notifyGlobalSubscribers; eauto.
    + intros [= <-]. auto.
Qed.

Lemma stable_notifySubscribers fuel e st p e' :
  SubscribersManager.notifySubscribers fuel e st p = Some e' -> R e e'.
Proof.
  destruct fuel as [|fuel]; simpl.
  - destruct (isUpdating e); [intros [= <-]; apply R_cycle|].
    destruct (_ <? _)%nat; [|discriminate].
    intros [= <-]. eapply R_trans; apply R_cycle.
  - destruct (isUpdating e); [intros [= <-]; apply R_cycle|].
    destruct (_ <? _)%nat.
    { intros [= <-]. eapply R_trans; apply R_cycle. }
    match goal with |- context [SubscribersManager.dispatch ?n ?f ?x st p] =>
      destruct (SubscribersManager.dispatch n f x st p) as [e3|] eqn:Hd
    end; [|discriminate].
    apply stable_dispatch in Hd; [|reflexivity]. destruct Hd as [Hd _].
    intros H.
    assert (R e e3).
    { eapply R_trans; [|exact Hd]. eapply R_trans; apply R_cycle. }
    destruct (pendingUpdates _) in H; injection H as <-.
    + eapply R_trans; [eassumption|]. eapply R_trans; apply R_cycle.
    + eapply R_trans; [eassumption|].
      eapply R_trans; [apply R_cycle|].
      eapply R_trans; [apply R_cycle|]. apply R_timers.
Qed.

Lemma stable_replay fuel pending : forall e st e',
  SubscribersManager.replay fuel e st pending = Some e' -> R e e'.
Proof.
  induction pending as [|p r IH]; intros e st e'; simpl.
  - intros [= <-]. apply R_cycle.
  - destruct (SubscribersManager.notifySubscribers fuel e st p) as [e1|] eqn:Hn;
      [|discriminate].
    intros H. eapply R_trans; [eapply stable_notifySubscribers; eauto|eauto].
Qed.

Lemma stable_runTimers n fuel : forall e e',
  Api.runTimers n fuel e = Some e' -> R e e'.
Proof.
  induction n as [|n IH]; intros e e'; simpl.
  - intros [= <-]. apply R_refl.
  - unfold Api.runTimer. destruct (timers e) as [|t rest] eqn:Ht.
    + apply IH.
    + destruct (SubscribersManager.replay _ _ _ _) as [e1|] eqn:Hr;
        [|discriminate].
      intros H. eapply R_trans; [apply R_timers|].
      eapply R_trans; [eapply stable_replay; eauto|eauto].
Qed.

End DispatchStable.

(** ** The root object a deferred pass is given *)

Lemma CbStep_timers e e' : CbStep e e' -> timers e' = timers e.
Proof.
  destruct 1; simpl; auto.
  - unfold Registry.subscribe.
    destruct (maxSubscribers e <=? _)%nat; reflexivity.
  - unfold Registry.unsubscribe. destruct h as [[p i]|]; auto.
    destruct (assocGet (subscribers e) p); auto.
    destruct (members _); reflexivity.
Qed.

Lemma dispatch_timers fuel fuel' e st p e' :
  isUpdating e = true ->
  SubscribersManager.dispatch (SubscribersManager.notifySubscribers fuel) fuel'
    e st p = Some e' ->
  timers e' = timers e.
Proof.
  intros Hu Hd.
  refine (proj1 (stable_dispatch (fun a b => timers b = timers a)
                   _ _ _ _ _ _ fuel fuel' e st p e' Hu Hd)); simpl; auto.
  - intros; congruence.
  - apply CbStep_timers.
Qed.

Lemma notifySubscribers_timer_state fuel e st p e' :
  isUpdating e = false ->
  SubscribersManager.notifySubscribers fuel e st p = Some e' ->
  timers e' = timers e
  \/ exists pending, pending <> [] /\ timers e' = timers e ++ [mkTimer st pending].
Proof.
  intros Hu. destruct fuel as [|fuel]; simpl; rewrite Hu.
  - destruct (_ <? _)%nat; [|discriminate]. intros [= <-]. left. reflexivity.
  - destruct (_ <? _)%nat; [intros [= <-]; left; reflexivity|].
    match goal with |- context [SubscribersManager.dispatch ?n ?f ?x st p] =>
      destruct (SubscribersManager.dispatch n f x st p) as [e3|] eqn:Hd
    end; [|discriminate].
    apply dispatch_timers in Hd; [|reflexivity]. simpl in Hd.
    destruct (pendingUpdates e3) as [|q r] eqn:Hp; simpl; try rewrite Hp;
      intros [= <-]; simpl.
    + left. exact Hd.
    + right. exists (q :: r). split; [discriminate|]. now rewrite Hd.
Qed.

(** C10: the timer task that replays the pending paths closes over the
    [state] argument of the call that queued it, so the wildcard
    subscribers of the deferred pass are given that root object.  When a
    callback has merged an object meanwhile, [this.state] is a new root:
    the wildcard subscriber of the deferred pass still receives the old
    root, without the merged key, while the subscriber of a path receives
    the current value. *)
Theorem deferred_wildcard_receives_outer_root :
  (forall fuel e st p e',
      isUpdating e = false ->
      SubscribersManager.notifySubscribers fuel e st p = Some e' ->
      timers e' = timers e
      \/ exists pending,
           pending <> [] /\ timers e' = timers e ++ [mkTimer st pending])
  /\ exists e1 e2,
       Api.set 2 mergeEngine "a" (VNum 0) = Some e1
       /\ timers e1 = [mkTimer 0 ["*"; "c"]]
       /\ state e1 = 1%nat
       /\ currentTree e1 = VObj [("a", VNum 0); ("b", VNum 1); ("c", VNum 2)]
       /\ Api.runTimer 2 e1 = Some e2
       /\ trace e2 = trace e1
                     ++ [EvCall "*" 5 (VObj [("a", VNum 0)]) "*"; EvDone 5;
                         EvCall "c" 3 (VNum 2) "c"; EvDone 3;
                         EvCall "*" 5 (VObj [("a", VNum 0)]) "c"; EvDone 5]
       /\ currentTree e2 = VObj [("a", VNum 0); ("b", VNum 1); ("c", VNum 2)].
Proof.
  split; [exact notifySubscribers_timer_state|].
  eexists. eexists.
  split; [vm_compute; reflexivity|].
  split; [reflexivity|]. split; [reflexivity|]. split; [reflexivity|].
  split; [vm_compute; reflexivity|].
  split; reflexivity.
Qed.

Lemma deferred_wildcard_receives_outer_root_witness :
  exists e',
    SubscribersManager.notifySubscribers 2 mergeEngine 0 "a" = Some e'
    /\ (timers e' = timers mergeEngine
        \/ exists pending,
             pending <> [] /\ timers e' = timers mergeEngine ++ [mkTimer 0 pending]).
Proof.
  eexists. split; [vm_compute; reflexivity|].
  apply (proj1 deferred_wildcard_receives_outer_root 2 mergeEngine 0 "a");
    vm_compute; reflexivity.
Defined.

(** ** The closure of a computed value *)

Lemma fold_total_acc (subs : list (string * SubSet)) (a : nat) :
  fold_left (fun total kv => (total + List.length (members (snd kv)))%nat) subs a
  = (a + Registry.totalSubscribers subs)%nat.
Proof.
  unfold Registry.totalSubscribers. revert a.
  induction subs as [|kv r IH]; intros a; simpl; [lia|].
  rewrite (IH (a + _)%nat), (IH (List.length _)). lia.
Qed.

Lemma totalSubscribers_cons kv subs :
  Registry.totalSubscribers (kv :: subs)
  = (List.length (members (snd kv)) + Registry.totalSubscribers subs)%nat.
Proof. unfold Registry.totalSubscribers at 1. simpl. apply fold_total_acc. Qed.

Lemma totalSubscribers_app subs kv :
  Registry.totalSubscribers (subs ++ [kv])
  = (Registry.totalSubscribers subs + List.length (members (snd kv)))%nat.
Proof.
  induction subs as [|x r IH]; simpl.
  - rewrite totalSubscribers_cons. unfold Registry.totalSubscribers. simpl. lia.
  - rewrite !totalSubscribers_cons, IH. lia.
Qed.

Lemma totalSubscribers_add subs path s m :
  assocGet subs path = Some s ->
  Registry.totalSubscribers
    (assocSet subs path (mkSubSet (setId s) (members s ++ [m])))
  = S (Registry.totalSubscribers subs).
Proof.
  induction subs as [|[k x] r IH]; simpl; [discriminate|].
  destruct (String.eqb k path).
  - intros [= ->]. rewrite !totalSubscribers_cons. simpl.
    rewrite length_app. simpl. lia.
  - intros H. rewrite !totalSubscribers_cons, IH by assumption. simpl. lia.
Qed.

Lemma assocGet_app_new {A : Type} (m : list (string * A)) k a :
  assocGet m k = None -> assocGet (m ++ [(k, a)]) k = Some a.
Proof.
  induction m as [|[k' a'] r IH]; simpl.
  - now rewrite String.eqb_refl.
  - destruct (String.eqb k' k); [discriminate|auto].
Qed.

Lemma assocGet_assocSet_same {A : Type} (m : list (string * A)) k a a' :
  assocGet m k = Some a' -> assocGet (assocSet m k a) k = Some a.
Proof.
  induction m as [|[k' x] r IH]; simpl; [discriminate|].
  destruct (String.eqb k' k) eqn:E; simpl; rewrite E; auto.
Qed.

(** What an accepted subscription does to the registry. *)
Lemma subscribe_accepted e path cb :
  (Registry.totalSubscribers (subscribers e) < maxSubscribers e)%nat ->
  exists e' s,
    Registry.subscribe e path cb = (e', Some (path, S (nextId e)))
    /\ Registry.totalSubscribers (subscribers e')
       = S (Registry.totalSubscribers (subscribers e))
    /\ assocGet (subscribers e') path = Some s
    /\ last (members s) (mkSubscriber cb 0) = mkSubscriber cb (S (nextId e))
    /\ e' = with_subscribers e (subscribers e') (S (S (nextId e))).
Proof.
  intros Hlt. unfold Registry.subscribe.
  destruct (maxSubscribers e <=? _)%nat eqn:E; [apply Nat.leb_le in E; lia|].
  destruct (assocGet (subscribers e) path) as [s|] eqn:Hg.
  - rewrite Hg. eexists. eexists. split; [reflexivity|]. simpl.
    rewrite (totalSubscribers_add _ _ _ _ Hg).
    rewrite (assocGet_assocSet_same _ _ _ _ Hg).
    repeat split. simpl. now rewrite last_last.
  - rewrite (assocGet_app_new _ _ (mkSubSet (nextId e) []) Hg).
    eexists. eexists. split; [reflexivity|]. cbn [subscribers with_subscribers].
    rewrite (totalSubscribers_add _ _ _ _
               (assocGet_app_new _ _ (mkSubSet (nextId e) []) Hg)).
    rewrite totalSubscribers_app. simpl.
    rewrite (assocGet_assocSet_same _ _ _ _
               (assocGet_app_new _ _ (mkSubSet (nextId e) []) Hg)).
    repeat split; auto.
Qed.

Lemma assocGet_assocSet {A : Type} (m : list (string * A)) k a :
  assocGet (assocSet m k a) k = Some a.
Proof.
  induction m as [|[k' x] r IH]; simpl.
  - now rewrite String.eqb_refl.
  - destruct (String.eqb k' k) eqn:E; simpl; rewrite E; auto.
Qed.





(** ** Unsubscription *)

Lemma EngineSteps_trans e1 e2 e3 :
  EngineSteps e1 e2 -> EngineSteps e2 e3 -> EngineSteps e1 e3.
Proof. induction 1; auto. intros. econstructor; eauto. Qed.

Lemma EngineSteps_one e1 e2 : EngineStep e1 e2 -> EngineSteps e1 e2.
Proof. intros. econstructor; [eassumption|constructor]. Qed.




















(** Every function of the dispatcher is a sequence of engine steps. *)
Lemma notifySubscribers_EngineSteps fuel e st p e' :
  SubscribersManager.notifySubscribers fuel e st p = Some e' -> EngineSteps e e'.
Proof.
  apply (stable_notifySubscribers EngineSteps); intros;
    try (apply EngineSteps_one; econstructor; eauto; fail).
  - constructor.
  - eapply EngineSteps_trans; eauto.
Qed.

Lemma runTimers_EngineSteps n fuel e e' :
  Api.runTimers n fuel e = Some e' -> EngineSteps e e'.
Proof.
  apply (stable_runTimers EngineSteps); intros;
    try (apply EngineSteps_one; econstructor; eauto; fail).
  - constructor.
  - eapply EngineSteps_trans; eauto.
Qed.

Lemma set_EngineSteps fuel e p v e' :
  Api.set fuel e p v = Some e' -> EngineSteps e e'.
Proof.
  unfold Api.set, ReactiveState.setByPath.
  destruct (negb (validatePath p)); [intros [= <-]; constructor|].
  destruct (negb (validateKey _)); [intros [= <-]; constructor|].
  destruct (Tree.walkAssign _ _ _ _) as [[o old]|]; [|discriminate].
  destruct o; try discriminate.
  set (e1 := ReactiveState.writeBack _ _ _ _).
  assert (H1 : EngineStep e e1) by (apply estep_cb, step_heap; simpl; lia).
  destruct (differs old _).
  - intros H. econstructor; [exact H1|].
    eapply notifySubscribers_EngineSteps; eauto.
  - intros [= <-]. now apply EngineSteps_one.
Qed.








(** The same during a dispatch: subscriber 3 is registered after subscriber
    1 on ["a"]; the callback of 1 removes it, and the pass that is under
    way does not reach it, nor does any deferred pass. *)
Lemma unsubscribed_in_dispatch_not_reached :
  registered 3 (subscribers evictEngine) = true
  /\ exists e1 e2,
       Api.set 3 evictEngine "a" (VBool true) = Some e1
       /\ Api.runTimers 2 3 e1 = Some e2
       /\ trace e2 = [EvCall "a" 1 (VBool true) "a"; EvDone 1;
                      EvCall "a" 1 (VBool false) "a"; EvDone 1;
                      EvCall "a" 1 (VBool true) "a"; EvDone 1]
       /\ registered 3 (subscribers e2) = false.
Proof.
  split; [reflexivity|]. eexists. eexists.
  split; [vm_compute; reflexivity|].
  split; [vm_compute; reflexivity|].
  split; reflexivity.
Qed.

(** ** Order of the invocations in one notify call *)







Lemma within_In ids : forall lo hi i,
  within lo hi ids = true -> In i ids -> (lo <= i < hi)%nat.
Proof.
  induction ids as [|j r IH]; simpl; [contradiction|].
  intros lo hi i H Hin.
  apply andb_true_iff in H as [H H3]. apply andb_true_iff in H as [H1 H2].
  apply Nat.leb_le in H1. apply Nat.ltb_lt in H2.
  destruct Hin as [->|Hin]; [lia|].
  specialize (IH _ _ _ H3 Hin). lia.
Qed.




Lemma assocGet_In {A : Type} (m : list (string * A)) k a :
  assocGet m k = Some a -> exists k', In (k', a) m.
Proof.
  induction m as [|[k' x] r IH]; simpl; [discriminate|].
  destruct (String.eqb k' k).
  - intros [= ->]. eauto.
  - intros H. destruct (IH H) as [k'' Hin]. eauto.
Qed.




Lemma setsOrdered_get n subs path s :
  setsOrdered n subs -> assocGet subs path = Some s ->
  (setId s < n)%nat /\ within 0 n (map id (members s)) = true.
Proof.
  intros [_ Hf] Hg. destruct (assocGet_In _ _ _ Hg) as [k Hin].
  rewrite Forall_forall in Hf. exact (Hf _ Hin).
Qed.






















Lemma orderEngine_ordered : registryOrdered orderEngine.
Proof.
  split.
  - simpl. repeat constructor; simpl; intuition discriminate.
  - simpl. repeat constructor; simpl; lia.
Qed.


(** The scenario of the specification: the wildcard subscriber (1) was
    registered before the subscriber of ["a.b"] (3), and [set("a.b", 1)]
    still invokes 3 first; the callback of 3 has ended when 1 starts. *)
Lemma path_subscriber_runs_before_wildcard :
  exists e',
    Api.set 2 orderEngine "a.b" (VNum 1) = Some e'
    /\ trace e' = [EvCall "a.b" 3 (VNum 1) "a.b"; EvDone 3;
                   EvCall "*" 1 (VObj [("a", VObj [("b", VNum 1)])]) "a.b";
                   EvDone 1]
    /\ timers e' = [].
Proof.
  eexists. split; [vm_compute; reflexivity|]. split; reflexivity.
Qed.

(** ** The round trip of [set] and [get] *)






(** * Further properties of the engine *)

(** ** The sanitizer is idempotent *)

Lemma objSet_keys ps k v :
  map fst (objSet ps k v)
  = if existsb (String.eqb k) (map fst ps) then map fst ps else map fst ps ++ [k].
Proof.
  induction ps as [|[k' v'] r IH]; simpl; auto.
  rewrite (String.eqb_sym k k').
  destruct (String.eqb k' k) eqn:E; simpl; auto.
  rewrite IH. destruct (existsb _ _); reflexivity.
Qed.

Lemma distinct_keys_snoc ks k :
  distinct_keys ks = true -> existsb (String.eqb k) ks = false ->
  distinct_keys (ks ++ [k]) = true.
Proof.
  induction ks as [|x r IH]; simpl; auto.
  intros Hd He. apply andb_true_iff in Hd as [H1 H2].
  apply orb_false_iff in He as [He1 He2].
  rewrite existsb_app. simpl. apply negb_true_iff in H1.
  rewrite H1, String.eqb_sym, He1. simpl. auto.
Qed.

Lemma objSet_well_formed ps k v :
  well_formed (VObj ps) = true -> well_formed v = true ->
  well_formed (VObj (objSet ps k v)) = true.
Proof.
  simpl. intros H Hv. apply andb_true_iff in H as [Hd Hf].
  apply andb_true_iff. split.
  - rewrite objSet_keys. destruct (existsb _ _) eqn:E; auto.
    now apply distinct_keys_snoc.
  - clear Hd. induction ps as [|[k' v'] r IH]; simpl in *.
    + now rewrite Hv.
    + apply andb_true_iff in Hf as [H1 H2].
      destruct (String.eqb k' k); simpl; rewrite ?Hv, ?H1, ?H2; auto.
Qed.

Lemma sanitizeEntries_well_formed l :
  Forall (fun kv => well_formed (sanitizeState (snd kv)) = true) l ->
  forall acc, well_formed (VObj acc) = true ->
              well_formed (VObj (sanitizeEntries l acc)) = true.
Proof.
  induction 1 as [|[k v] r Hv Hr IH]; intros acc Hacc; [exact Hacc|].
  cbn [sanitizeEntries].
  destruct (String.eqb k "__proto__" || String.eqb k "constructor"
            || String.eqb k "prototype"); auto.
  destruct (trim_is_empty k); auto.
  apply IH. now apply objSet_well_formed.
Qed.

Lemma sanitizeState_well_formed (v : Value) : well_formed (sanitizeState v) = true.
Proof.
  induction v as [| | | | | |xs IH|ps IH] using Value_deep_ind; try reflexivity.
  - simpl. induction IH as [|x r Hx Hr IHr]; simpl; auto.
    now rewrite Hx, IHr.
  - rewrite sanitizeState_obj. now apply sanitizeEntries_well_formed.
Qed.

(** X1: sanitizing twice is sanitizing once: the output of [sanitizeState]
    holds no key that [sanitizeState] drops and no duplicate key, whatever
    the input. *)
Theorem sanitizeState_idempotent (v : Value) :
  sanitizeState (sanitizeState v) = sanitizeState v
  /\ keys_safe (sanitizeState v) = true
  /\ well_formed (sanitizeState v) = true.
Proof.
  split; [|split].
  - apply sanitizeState_clean.
    + apply sanitizeState_keys_safe.
    + apply sanitizeState_well_formed.
  - apply sanitizeState_keys_safe.
  - apply sanitizeState_well_formed.
Qed.

(** ** No reserved key enters the tree through [setByPath] *)

Lemma keys_safe_reserved_free (v : Value) :
  keys_safe v = true -> reserved_free v = true.
Proof.
  induction v as [| | | | | |xs IH|ps IH] using Value_deep_ind; try reflexivity.
  - simpl. induction IH as [|x r Hx Hr IHr]; simpl; auto.
    intros H. apply andb_true_iff in H as [H1 H2]. now rewrite Hx, IHr.
  - simpl. induction IH as [|[k x] r Hx Hr IHr]; simpl in *; auto.
    intros H. apply andb_true_iff in H as [H1 H2].
    apply andb_true_iff in H1 as [H1 H3]. unfold key_kept in H1.
    apply andb_true_iff in H1 as [H1 _]. now rewrite H1, Hx, IHr.
Qed.

Lemma reserved_free_objGet ps k v :
  reserved_free (VObj ps) = true -> objGet ps k = Some v ->
  reserved_free v = true.
Proof.
  simpl. induction ps as [|[k' v'] r IH]; simpl; [discriminate|].
  intros H. apply andb_true_iff in H as [H1 H2].
  apply andb_true_iff in H1 as [_ H1].
  destruct (String.eqb k' k); [intros [= <-]; auto|auto].
Qed.

Lemma reserved_free_nth items i :
  forallb reserved_free items = true -> reserved_free (nth i items VUndef) = true.
Proof.
  revert i. induction items as [|x r IH]; intros [|i]; simpl; auto;
    intros H; apply andb_true_iff in H as [H1 H2]; auto.
Qed.

Lemma reserved_free_getProp obj k v :
  reserved_free obj = true -> getProp obj k = Some v -> reserved_free v = true.
Proof.
  destruct obj; simpl; try discriminate.
  - intros _. destruct (array_index k) as [i|].
    + intros [= <-]. destruct (String.get i s); reflexivity.
    + destruct (String.eqb k "length"); [intros [= <-]; reflexivity|discriminate].
  - intros H. destruct (array_index k).
    + intros [= <-]. now apply reserved_free_nth.
    + destruct (String.eqb k "length"); [intros [= <-]; reflexivity|discriminate].
  - intros H. destruct (objGet props k) as [w|] eqn:E.
    + intros [= <-]. eapply (reserved_free_objGet props); eauto.
    + unfold objectPrototypeGet.
      destruct (String.eqb k "__proto__"); [discriminate|].
      destruct (String.eqb k "constructor"); [intros [= <-]; reflexivity|].
      destruct (existsb _ _); intros [= <-]; reflexivity.
Qed.

Lemma reserved_free_arraySet items : forall i v,
  forallb reserved_free items = true -> reserved_free v = true ->
  forallb reserved_free (arraySet items i v) = true.
Proof.
  induction items as [|x r IH]; intros i v H Hv.
  - clear H. induction i as [|i IHi]; simpl; [now rewrite Hv|exact IHi].
  - simpl in H. apply andb_true_iff in H as [H1 H2].
    destruct i; simpl; [now rewrite Hv, H2|now rewrite H1, IH].
Qed.

Lemma reserved_free_setProp obj k v obj' :
  reserved_free obj = true -> validateKey k = true -> reserved_free v = true ->
  setProp obj k v = Some obj' -> reserved_free obj' = true.
Proof.
  intros Ho Hk Hv. destruct obj; simpl; try discriminate.
  - destruct (array_index k); [|discriminate]. intros [= <-]. simpl.
    now apply reserved_free_arraySet.
  - destruct (String.eqb k "__proto__"); [discriminate|]. intros [= <-].
    simpl. apply objSet_forallb; auto.
    + simpl. now rewrite Hk, Hv.
    + intros k' a b E _. apply String.eqb_eq in E. now subst.
Qed.

Lemma reserved_free_walkAssign keys : forall obj lastKey v obj' old,
  reserved_free obj = true -> validateKey lastKey = true ->
  reserved_free v = true ->
  Tree.walkAssign obj keys lastKey v = Some (obj', old) ->
  reserved_free obj' = true.
Proof.
  induction keys as [|key rest IH]; intros obj lastKey v obj' old Ho Hl Hv;
    cbn [Tree.walkAssign].
  - destruct (getProp obj lastKey); [|discriminate].
    destruct (setProp obj lastKey v) eqn:Es; [|discriminate].
    intros [= <- _]. exact (reserved_free_setProp _ _ _ _ Ho Hl Hv Es).
  - destruct (validateKey key) eqn:Hk; simpl negb; cbv iota; [|eauto].
    destruct (getProp obj key) as [cur|] eqn:Eg; [|discriminate].
    set (c := if negb (truthy cur) || negb (typeof_object cur)
              then VObj [] else cur).
    assert (Hc : reserved_free c = true).
    { unfold c.
      destruct (negb (truthy cur) || negb (typeof_object cur)); [reflexivity|].
      exact (reserved_free_getProp _ _ _ Ho Eg). }
    destruct (Tree.walkAssign c rest lastKey v) as [[child' o]|] eqn:Ew;
      [|discriminate].
    destruct (setProp obj key child') eqn:Es; [|discriminate].
    intros [= <- _].
    exact (reserved_free_setProp _ _ _ _ Ho Hk (IH _ _ _ _ _ Hc Hl Hv Ew) Es).
Qed.

(** X2: a tree without reserved key stays without reserved key through
    [setByPath], whatever the path and the value: the value is sanitized
    and a reserved segment is never used as a key. *)
Theorem setByPath_keeps_reserved_keys_out
  (state : Value) (path : string) (value : Value) (state' : Value)
  (n : option string) :
  reserved_free state = true ->
  Tree.setByPath state path value = Some (state', n) ->
  reserved_free state' = true.
Proof.
  intros Hs. unfold Tree.setByPath.
  destruct (negb (validatePath path)); [intros [= <- _]; exact Hs|].
  destruct (validateKey (last (split_dot path) "")) eqn:Hl; simpl;
    [|intros [= <- _]; exact Hs].
  destruct (Tree.walkAssign _ _ _ _) as [[s' o]|] eqn:Hw; [|discriminate].
  intros [= <- _].
  exact (reserved_free_walkAssign _ _ _ _ _ _ Hs Hl
           (keys_safe_reserved_free _ (sanitizeState_keys_safe value)) Hw).
Qed.

Lemma setByPath_keeps_reserved_keys_out_witness :
  reserved_free
    (VObj [("user", VArr [VNum 0]); ("a", VObj [("ok", VNum 2)])]) = true.
Proof.
  apply (setByPath_keeps_reserved_keys_out
           (VObj [("user", VArr [VNum 0])]) "constructor.a"
           (VObj [("__proto__", VNum 1); ("ok", VNum 2)]) _
           (Some "constructor.a")); reflexivity.
Defined.

(** ** What [setByPath] leaves alone *)

Lemma walkAssign_root keys : forall props lastKey v o old,
  Tree.walkAssign (VObj props) keys lastKey v = Some (o, old) ->
  exists x, o = VObj (objSet props (hd lastKey (filter validateKey keys)) x).
Proof.
  induction keys as [|key rest IH]; intros props lastKey v o old;
    cbn [Tree.walkAssign].
  - destruct (getProp (VObj props) lastKey); [|discriminate]. simpl.
    destruct (String.eqb lastKey "__proto__"); [discriminate|].
    intros [= <- _]. eauto.
  - simpl filter. destruct (validateKey key); simpl negb; cbv iota; [|apply IH].
    destruct (getProp (VObj props) key); [|discriminate].
    destruct (Tree.walkAssign _ rest lastKey v) as [[c' o']|]; [|discriminate].
    simpl. destruct (String.eqb key "__proto__"); [discriminate|].
    intros [= <- _]. eauto.
Qed.

Lemma getStep_root_other props k0 x k :
  String.eqb k0 k = false ->
  Tree.getStep (Some (VObj (objSet props k0 x))) k
  = Tree.getStep (Some (VObj props)) k.
Proof.
  intros Hk. unfold Tree.getStep. destruct (negb (validateKey k)); auto.
  simpl. now rewrite (objGet_objSet_other props k0 k x Hk).
Qed.

(** X3: [setByPath] changes the root at one key only, the first segment of
    the path that passes [validateKey]: [get] of any path that starts with
    another segment reads what it read before. *)
Theorem setByPath_leaves_other_keys
  (props : list (string * Value)) (path : string) (value : Value)
  (state' : Value) (n : option string) (q : string) :
  Tree.setByPath (VObj props) path value = Some (state', n) ->
  String.eqb q "" = false ->
  String.eqb (writtenKey path) (hd "" (split_dot q)) = false ->
  Tree.get state' (Some q) = Tree.get (VObj props) (Some q).
Proof.
  unfold Tree.setByPath.
  destruct (negb (validatePath path)); [intros [= <- _]; reflexivity|].
  destruct (negb (validateKey _)); [intros [= <- _]; reflexivity|].
  destruct (Tree.walkAssign _ _ _ _) as [[s' o]|] eqn:Hw; [|discriminate].
  intros [= <- _] Hq Hk. unfold writtenKey in Hk.
  destruct (walkAssign_root _ _ _ _ _ _ Hw) as [x ->].
  unfold Tree.get. rewrite Hq. destruct (negb (validatePath q)); auto.
  pose proof (split_dot_nonempty q) as Hne.
  destruct (split_dot q) as [|k r]; [contradiction|]. cbn [hd] in Hk.
  cbn [fold_left]. now rewrite (getStep_root_other props _ x k Hk).
Qed.

Lemma setByPath_leaves_other_keys_witness :
  Tree.get (VObj [("user", VObj [("name", VStr "x")]); ("count", VNum 1)])
    (Some "user.name")
  = Tree.get (VObj [("user", VObj [("name", VStr "x")])]) (Some "user.name").
Proof.
  apply (setByPath_leaves_other_keys
           [("user", VObj [("name", VStr "x")])] "__proto__.count" (VNum 1)
           _ (Some "__proto__.count") "user.name"); reflexivity.
Defined.

(** ** Setting the same value twice *)










(** ** The ceiling on the number of subscribers *)

Lemma length_filter_le {A : Type} (f : A -> bool) (l : list A) :
  (List.length (filter f l) <= List.length l)%nat.
Proof.
  induction l as [|x r IH]; simpl; auto. destruct (f x); simpl; lia.
Qed.

Lemma totalSubscribers_assocSet_le subs path s s' :
  assocGet subs path = Some s ->
  (List.length (members s') <= List.length (members s))%nat ->
  (Registry.totalSubscribers (assocSet subs path s')
   <= Registry.totalSubscribers subs)%nat.
Proof.
  induction subs as [|[k x] r IH]; simpl; [discriminate|].
  destruct (String.eqb k path).
  - intros [= ->] Hle. rewrite !totalSubscribers_cons. simpl. lia.
  - intros Hg Hle. rewrite !totalSubscribers_cons. simpl.
    specialize (IH Hg Hle). lia.
Qed.

Lemma totalSubscribers_assocDelete_le subs path :
  (Registry.totalSubscribers (assocDelete subs path)
   <= Registry.totalSubscribers subs)%nat.
Proof.
  induction subs as [|[k x] r IH]; simpl; auto.
  destruct (String.eqb k path); rewrite !totalSubscribers_cons; simpl; lia.
Qed.

Lemma totalSubscribers_deleteFrom_le subs sid sub :
  (Registry.totalSubscribers (Registry.deleteFrom subs sid sub)
   <= Registry.totalSubscribers subs)%nat.
Proof.
  induction subs as [|[k x] r IH]; simpl; auto.
  rewrite !totalSubscribers_cons.
  destruct (Nat.eqb (setId x) sid); simpl; [|lia].
  pose proof (length_filter_le (fun m => negb (Nat.eqb (id m) sub)) (members x)).
  lia.
Qed.

Lemma totalSubscribers_unsubscribe e h :
  (Registry.totalSubscribers (subscribers (Registry.unsubscribe e h))
   <= Registry.totalSubscribers (subscribers e))%nat
  /\ maxSubscribers (Registry.unsubscribe e h) = maxSubscribers e.
Proof.
  unfold Registry.unsubscribe. destruct h as [[path sub]|]; auto.
  destruct (assocGet (subscribers e) path) as [s|] eqn:Hg; auto.
  destruct (members (Registry.deleteMember s sub)) eqn:Hm; simpl.
  - split; auto. apply totalSubscribers_assocDelete_le.
  - split; auto. eapply totalSubscribers_assocSet_le; eauto.
    simpl. apply length_filter_le.
Qed.

Lemma totalSubscribers_subscribe e path cb :
  (Registry.totalSubscribers (subscribers e) <= maxSubscribers e)%nat ->
  (Registry.totalSubscribers (subscribers (fst (Registry.subscribe e path cb)))
   <= maxSubscribers e)%nat
  /\ maxSubscribers (fst (Registry.subscribe e path cb)) = maxSubscribers e.
Proof.
  intros Hle.
  destruct (le_lt_dec (maxSubscribers e)
              (Registry.totalSubscribers (subscribers e))) as [Hfull|Hroom].
  - unfold Registry.subscribe. apply Nat.leb_le in Hfull. rewrite Hfull. auto.
  - destruct (subscribe_accepted e path cb Hroom)
      as (e' & s & Hs & Ht & _ & _ & He').
    rewrite Hs. simpl. rewrite Ht. split; [lia|]. now rewrite He'.
Qed.

Lemma ceiling_EngineStep e e' :
  EngineStep e e' ->
  (Registry.totalSubscribers (subscribers e) <= maxSubscribers e)%nat ->
  (Registry.totalSubscribers (subscribers e') <= maxSubscribers e')%nat
  /\ maxSubscribers e' = maxSubscribers e.
Proof.
  intros H Hle. destruct H as [e e' H| | | | |]; simpl; auto.
  - destruct H; simpl; auto.
    + destruct (totalSubscribers_subscribe e path cb Hle) as [H1 H2].
      rewrite H2. auto.
    + destruct (totalSubscribers_unsubscribe e h) as [H1 H2].
      rewrite H2. split; [lia|reflexivity].
  - split; auto.
    pose proof (totalSubscribers_deleteFrom_le (subscribers e) sid sub). lia.
Qed.

Lemma ceiling_EngineSteps e e' :
  EngineSteps e e' ->
  (Registry.totalSubscribers (subscribers e) <= maxSubscribers e)%nat ->
  (Registry.totalSubscribers (subscribers e') <= maxSubscribers e')%nat
  /\ maxSubscribers e' = maxSubscribers e.
Proof.
  induction 1 as [e|e1 e2 e3 H12 H23 IH]; intros Hle; auto.
  destruct (ceiling_EngineStep _ _ H12 Hle) as [H1 H2].
  destruct (IH H1) as [H3 H4]. split; [auto|congruence].
Qed.

(** X5: the number of registered subscribers never exceeds
    [maxSubscribers]: an engine within its ceiling stays within it through
    every [subscribe], [set], notification and timer task, whatever the
    callbacks do. *)
Theorem registry_stays_within_ceiling (e : Engine) :
  (Registry.totalSubscribers (subscribers e) <= maxSubscribers e)%nat ->
  (forall path cb,
      (Registry.totalSubscribers
         (subscribers (fst (Registry.subscribe e path cb)))
       <= maxSubscribers e)%nat)
  /\ (forall fuel path value e',
        Api.set fuel e path value = Some e' ->
        (Registry.totalSubscribers (subscribers e') <= maxSubscribers e)%nat)
  /\ (forall n fuel e',
        Api.runTimers n fuel e = Some e' ->
        (Registry.totalSubscribers (subscribers e') <= maxSubscribers e)%nat)
  /\ (forall e', EngineSteps e e' ->
        (Registry.totalSubscribers (subscribers e') <= maxSubscribers e)%nat).
Proof.
  intros Hle.
  assert (Hall : forall e', EngineSteps e e' ->
    (Registry.totalSubscribers (subscribers e') <= maxSubscribers e)%nat).
  { intros e' Hs. destruct (ceiling_EngineSteps _ _ Hs Hle) as [H1 H2]. lia. }
  split; [|split; [|split]]; auto.
  - intros path cb. apply (totalSubscribers_subscribe e path cb Hle).
  - intros fuel path value e' H. apply Hall. eapply set_EngineSteps; eauto.
  - intros n fuel e' H. apply Hall. eapply runTimers_EngineSteps; eauto.
Qed.

Lemma registry_stays_within_ceiling_witness :
  exists e',
    Api.set 4 greedyEngine "a" (VNum 1) = Some e'
    /\ (Registry.totalSubscribers (subscribers e') <= maxSubscribers greedyEngine)%nat.
Proof.
  destruct (Api.set 4 greedyEngine "a" (VNum 1)) as [e'|] eqn:Hs;
    [|vm_compute in Hs; discriminate].
  exists e'. split; [reflexivity|].
  refine (proj1 (proj2 (registry_stays_within_ceiling greedyEngine _))
            4%nat "a" (VNum 1) e' Hs).
  vm_compute. lia.
Defined.

(** ** Unsubscribing twice *)

Lemma assocGet_absent {A : Type} (m : list (string * A)) k :
  existsb (String.eqb k) (map fst m) = false -> assocGet m k = None.
Proof.
  induction m as [|[k' a] r IH]; simpl; auto.
  intros H. apply orb_false_iff in H as [H1 H2].
  rewrite String.eqb_sym, H1. auto.
Qed.

Lemma assocGet_assocDelete {A : Type} (m : list (string * A)) k :
  distinct_keys (map fst m) = true -> assocGet (assocDelete m k) k = None.
Proof.
  induction m as [|[k' a] r IH]; simpl; auto.
  intros H. apply andb_true_iff in H as [H1 H2]. apply negb_true_iff in H1.
  destruct (String.eqb k' k) eqn:E.
  - apply String.eqb_eq in E. subst k'. now apply assocGet_absent.
  - simpl. rewrite E. auto.
Qed.

Lemma assocSet_idem {A : Type} (m : list (string * A)) k a :
  assocSet (assocSet m k a) k a = assocSet m k a.
Proof.
  induction m as [|[k' x] r IH]; simpl.
  - now rewrite String.eqb_refl.
  - destruct (String.eqb k' k) eqn:E; simpl; rewrite E; congruence.
Qed.

Lemma filter_idem {A : Type} (f : A -> bool) (l : list A) :
  filter f (filter f l) = filter f l.
Proof.
  induction l as [|x r IH]; simpl; auto.
  destruct (f x) eqn:E; simpl; rewrite ?E; congruence.
Qed.

Lemma deleteMember_idem s i :
  Registry.deleteMember (Registry.deleteMember s i) i = Registry.deleteMember s i.
Proof. unfold Registry.deleteMember. simpl. now rewrite filter_idem. Qed.

(** X6: calling the same unsubscribe handle twice has the effect of calling
    it once. *)
Theorem unsubscribe_idempotent (e : Engine) (h : Handle) :
  distinct_keys (map fst (subscribers e)) = true ->
  Registry.unsubscribe (Registry.unsubscribe e h) h = Registry.unsubscribe e h.
Proof.
  intros Hd. destruct h as [[path i]|]; [|reflexivity].
  unfold Registry.unsubscribe.
  destruct (assocGet (subscribers e) path) as [s|] eqn:Hg.
  - destruct (members (Registry.deleteMember s i)) as [|m r] eqn:Hm.
    + cbn [subscribers with_subscribers].
      now rewrite (assocGet_assocDelete _ path Hd).
    + cbn [subscribers with_subscribers].
      rewrite assocGet_assocSet, deleteMember_idem, Hm.
      cbn [subscribers with_subscribers nextId].
      rewrite assocSet_idem. reflexivity.
  - now rewrite Hg.
Qed.

Lemma unsubscribe_idempotent_witness :
  Registry.unsubscribe (Registry.unsubscribe evictEngine (Some ("a", 3%nat)))
    (Some ("a", 3%nat))
  = Registry.unsubscribe evictEngine (Some ("a", 3%nat)).
Proof. apply unsubscribe_idempotent. reflexivity. Defined.

(** ** Subscribing, then unsubscribing *)

Lemma assocSet_assocSet {A : Type} (m : list (string * A)) k a b :
  assocSet (assocSet m k a) k b = assocSet m k b.
Proof.
  induction m as [|[k' x] r IH]; simpl.
  - now rewrite String.eqb_refl.
  - destruct (String.eqb k' k) eqn:E; simpl; rewrite E; congruence.
Qed.

Lemma assocSet_same {A : Type} (m : list (string * A)) k a :
  assocGet m k = Some a -> assocSet m k a = m.
Proof.
  induction m as [|[k' x] r IH]; simpl; [discriminate|].
  destruct (String.eqb k' k) eqn:E.
  - intros [= ->]. reflexivity.
  - intros H. now rewrite IH.
Qed.

Lemma assocDelete_app_new {A : Type} (m : list (string * A)) k a :
  assocGet m k = None -> assocDelete (m ++ [(k, a)]) k = m.
Proof.
  induction m as [|[k' x] r IH]; simpl.
  - now rewrite String.eqb_refl.
  - destruct (String.eqb k' k); [discriminate|]. intros H. now rewrite IH.
Qed.

Lemma assocDelete_assocSet {A : Type} (m : list (string * A)) k a :
  assocGet m k <> None -> assocDelete (assocSet m k a) k = assocDelete m k.
Proof.
  induction m as [|[k' x] r IH]; simpl; [congruence|].
  destruct (String.eqb k' k) eqn:E; simpl; rewrite E; auto.
  intros H. now rewrite IH.
Qed.

Lemma filter_keeps_older (l : list Subscriber) (n : nat) :
  within 0 n (map id l) = true ->
  filter (fun m => negb (Nat.eqb (id m) (S n))) l = l.
Proof.
  intros Hw. assert (H : forall m, In m l -> (id m < n)%nat).
  { intros m Hin. apply (within_In _ _ _ _ Hw). now apply in_map. }
  clear Hw. induction l as [|x r IH]; simpl; auto.
  replace (Nat.eqb (id x) (S n)) with false.
  - simpl. rewrite IH; auto. intros m Hm. apply H. now right.
  - symmetry. apply Nat.eqb_neq. specialize (H x (or_introl eq_refl)). lia.
Qed.

(** X7: in a registry built by [subscribe], subscribing and then calling
    the handle gives the registry back, provided the path had no set or a
    set with a member (an empty set, left by the eviction of a failing
    subscriber, is dropped by the unsubscription). *)
Theorem subscribe_then_unsubscribe (e : Engine) (path : string) (cb : Callback) :
  registryOrdered e ->
  (forall s, assocGet (subscribers e) path = Some s -> members s <> []) ->
  subscribers
    (Registry.unsubscribe (fst (Registry.subscribe e path cb))
       (snd (Registry.subscribe e path cb)))
  = subscribers e.
Proof.
  intros Hw Hne. unfold Registry.subscribe.
  destruct (maxSubscribers e <=? _)%nat; [reflexivity|].
  destruct (assocGet (subscribers e) path) as [s|] eqn:Hg.
  - rewrite Hg. cbn [fst snd]. unfold Registry.unsubscribe.
    cbn [subscribers with_subscribers]. rewrite assocGet_assocSet.
    destruct (setsOrdered_get _ _ _ _ Hw Hg) as [_ Hs].
    unfold Registry.deleteMember. cbn [members setId].
    rewrite filter_app, (filter_keeps_older _ _ Hs). simpl.
    rewrite Nat.eqb_refl. simpl. rewrite app_nil_r.
    destruct (members s) as [|m r] eqn:Hm; [exfalso; now apply (Hne s)|].
    cbn [subscribers with_subscribers]. rewrite assocSet_assocSet.
    apply assocSet_same. rewrite Hg. destruct s. simpl in *. now subst.
  - rewrite (assocGet_app_new _ _ (mkSubSet (nextId e) []) Hg).
    cbn [fst snd]. unfold Registry.unsubscribe.
    cbn [subscribers with_subscribers]. rewrite assocGet_assocSet.
    unfold Registry.deleteMember. simpl. rewrite Nat.eqb_refl. simpl.
    rewrite assocDelete_assocSet
      by (rewrite (assocGet_app_new _ _ (mkSubSet (nextId e) []) Hg);
          discriminate).
    now apply assocDelete_app_new.
Qed.

Lemma subscribe_then_unsubscribe_witness :
  subscribers
    (Registry.unsubscribe (fst (Registry.subscribe orderEngine "a.b" (CbProg observer)))
       (snd (Registry.subscribe orderEngine "a.b" (CbProg observer))))
  = subscribers orderEngine.
Proof.
  apply subscribe_then_unsubscribe.
  - exact orderEngine_ordered.
  - intros s H. vm_compute in H. injection H as <-. discriminate.
Defined.

(** ** The cycle after a notification *)





(** ** The cache of computed values *)

Lemma differs_false_eq old new : differs old new = false -> old = new.
Proof.
  destruct new, old; simpl; try discriminate; auto; intros H;
    apply negb_false_iff in H.
  - apply Bool.eqb_prop in H. now subst.
  - apply Z.eqb_eq in H. now subst.
  - apply String.eqb_eq in H. now subst.
  - apply String.eqb_eq in H. now subst.
Qed.

Lemma assocGet_assocSet_other {A : Type} (m : list (string * A)) k k' a :
  String.eqb k k' = false -> assocGet (assocSet m k a) k' = assocGet m k'.
Proof.
  intros Hk. induction m as [|[k0 x] r IH]; simpl.
  - now rewrite Hk.
  - destruct (String.eqb k0 k) eqn:E; simpl.
    + apply String.eqb_eq in E. subst k0. now rewrite Hk.
    + now rewrite IH.
Qed.

Lemma subscribe_keeps_store e path cb :
  computedCache (fst (Registry.subscribe e path cb)) = computedCache e
  /\ roots (fst (Registry.subscribe e path cb)) = roots e
  /\ state (fst (Registry.subscribe e path cb)) = state e
  /\ trace (fst (Registry.subscribe e path cb)) = trace e.
Proof.
  unfold Registry.subscribe. destruct (maxSubscribers e <=? _)%nat; simpl; auto.
Qed.

(** X9: after the closure that [computed] subscribed to a dependency has
    run, the cached value of that entry is what [computeFn] returns on the
    current tree, whether the registry is full or not; the tree and the
    other entries are untouched. *)
Theorem computed_cache_is_recomputed
  (notify : Engine -> nat -> string -> option Engine) (scope : string)
  (s : Subscriber) (name : string) (computeFn : Value -> Value)
  (arg : Value) (p : string) (e : Engine) :
  callback s = CbComputed name computeFn ->
  exists e',
    ReactiveState.runCallback notify scope s arg p e = Some (e', Returned)
    /\ Api.getComputed e' name = computeFn (currentTree e)
    /\ currentTree e' = currentTree e
    /\ (forall other, String.eqb name other = false ->
                      Api.getComputed e' other = Api.getComputed e other).
Proof.
  intros Hcb. unfold ReactiveState.runCallback. rewrite Hcb.
  change (currentTree (with_event e (EvCall scope (id s) arg p)))
    with (currentTree e).
  change (computedCache (with_event e (EvCall scope (id s) arg p)))
    with (computedCache e).
  destruct (differs _ _) eqn:Hd.
  - match goal with |- context [Registry.subscribe ?x ?y ?z] =>
      destruct (subscribe_keeps_store x y z) as (Hc & Hr & Hs & _);
      set (e2 := fst (Registry.subscribe x y z)) in *
    end.
    exists (with_event e2 (EvDone (id s))). split; [reflexivity|].
    unfold Api.getComputed, currentTree, rootAt.
    change (computedCache (with_event e2 (EvDone (id s))))
      with (computedCache e2).
    change (roots (with_event e2 (EvDone (id s)))) with (roots e2).
    change (state (with_event e2 (EvDone (id s)))) with (state e2).
    rewrite Hc, Hr, Hs. simpl. rewrite assocGet_assocSet. repeat split; auto.
    intros other Ho. now rewrite (assocGet_assocSet_other _ _ _ _ Ho).
  - eexists. split; [reflexivity|].
    apply differs_false_eq in Hd.
    unfold Api.getComputed. simpl. repeat split; auto.
Qed.

Lemma computed_cache_is_recomputed_witness :
  exists e',
    ReactiveState.runCallback (SubscribersManager.notifySubscribers 0)
      "x" doubleSubscriber (VNum 1) "x" computedEngineX1 = Some (e', Returned)
    /\ Api.getComputed e' "double" = getX (currentTree computedEngineX1).
Proof.
  destruct (computed_cache_is_recomputed
              (SubscribersManager.notifySubscribers 0) "x" doubleSubscriber
              "double" getX (VNum 1) "x" computedEngineX1 eq_refl)
    as (e' & H1 & H2 & _).
  exists e'. split; assumption.
Defined.

(** ** Snapshots, [reset] and the merging [set] *)

Lemma jsonCopy_obj (props : list (string * Value)) :
  jsonCopy (VObj props) = VObj (jsonEntries props []).
Proof. reflexivity. Qed.

Lemma jsonAbsent_json_only v : json_only v = true -> jsonAbsent v = false.
Proof. destruct v; simpl; auto; discriminate. Qed.

Lemma jsonCopy_not_absent v : jsonAbsent v = false -> jsonAbsent (jsonCopy v) = false.
Proof. destruct v; simpl; auto. Qed.



Lemma jsonEntries_well_formed l :
  Forall (fun kv => well_formed (jsonCopy (snd kv)) = true) l ->
  forall acc, well_formed (VObj acc) = true ->
              well_formed (VObj (jsonEntries l acc)) = true.
Proof.
  induction 1 as [|[k v] r Hv Hr IH]; intros acc Hacc; [exact Hacc|].
  cbn [jsonEntries]. destruct (jsonAbsent v); auto.
  apply IH. now apply objSet_well_formed.
Qed.

Lemma jsonCopy_well_formed (v : Value) : well_formed (jsonCopy v) = true.
Proof.
  induction v as [| | | | | |xs IH|ps IH] using Value_deep_ind; try reflexivity.
  - simpl. induction IH as [|x r Hx Hr IHr]; simpl; auto.
    rewrite IHr, andb_true_r. destruct (jsonAbsent x); auto.
  - rewrite jsonCopy_obj. now apply jsonEntries_well_formed.
Qed.

Lemma distinct_keys_fresh (acc l : list (string * Value)) k v :
  distinct_keys (map fst (acc ++ (k, v) :: l)) = true ->
  existsb (String.eqb k) (map fst acc) = false.
Proof.
  induction acc as [|[k' v'] a IHa]; simpl; auto.
  intros Hd. apply andb_true_iff in Hd as [H1 H2]. apply negb_true_iff in H1.
  rewrite map_app in H1. simpl in H1.
  apply existsb_app_false in H1 as [H1a H1b]. simpl in H1b.
  apply orb_false_iff in H1b as [H1b _].
  rewrite String.eqb_sym, H1b. simpl. auto.
Qed.

Lemma jsonEntries_clean l :
  Forall (fun kv => jsonCopy (snd kv) = snd kv) l ->
  forallb (fun kv => json_only (snd kv)) l = true ->
  forall acc,
    distinct_keys (map fst (acc ++ l)) = true ->
    jsonEntries l acc = acc ++ l.
Proof.
  induction 1 as [|[k v] r Hv Hr IH]; intros Hk acc Hd; simpl.
  - now rewrite app_nil_r.
  - simpl in Hk. apply andb_true_iff in Hk as [Hk1 Hk2].
    rewrite (jsonAbsent_json_only _ Hk1). simpl in Hv. rewrite Hv.
    rewrite objSet_fresh by exact (distinct_keys_fresh _ _ _ _ Hd).
    rewrite IH; auto; now rewrite <- app_assoc.
Qed.

Lemma jsonCopy_clean (v : Value) :
  json_only v = true -> well_formed v = true -> jsonCopy v = v.
Proof.
  induction v as [| | | | | |xs IH|ps IH] using Value_deep_ind; try reflexivity.
  - simpl. intros Hs Hw. f_equal.
    induction IH as [|x r Hx Hr IHr]; simpl in *; auto.
    apply andb_true_iff in Hs as [Hs1 Hs2]. apply andb_true_iff in Hw as [Hw1 Hw2].
    rewrite (jsonAbsent_json_only _ Hs1). f_equal; auto.
  - rewrite jsonCopy_obj. simpl. intros Hs Hw.
    apply andb_true_iff in Hw as [Hd Hw]. f_equal.
    apply (jsonEntries_clean ps) with (acc := []); auto.
    clear Hd. induction IH as [|[k x] r Hx Hr IHr]; constructor; simpl in *.
    + apply andb_true_iff in Hs as [Hs _]. apply andb_true_iff in Hw as [Hw _].
      auto.
    + apply andb_true_iff in Hs as [_ Hs]. apply andb_true_iff in Hw as [_ Hw].
      auto.
Qed.

Lemma treeOf_assocSet root k tag v :
  propsOf (treeOf (assocSet root k (tag, v))) = objSet (propsOf (treeOf root)) k v.
Proof.
  induction root as [|[k' [t' v']] r IH]; simpl in *; auto.
  destruct (String.eqb k' k); simpl; auto. now rewrite IH.
Qed.

Lemma treeOf_spread l : forall root next,
  treeOf (fst (spread root l next))
  = VObj (spreadProps (propsOf (treeOf root)) l).
Proof.
  induction l as [|[k v] r IH]; intros root next.
  - reflexivity.
  - cbn [spread]. rewrite IH, treeOf_assocSet. reflexivity.
Qed.

Lemma spreadProps_fresh l : forall acc,
  distinct_keys (map fst (acc ++ l)) = true -> spreadProps acc l = acc ++ l.
Proof.
  induction l as [|[k v] r IH]; intros acc Hd; unfold spreadProps; simpl.
  - now rewrite app_nil_r.
  - rewrite objSet_fresh by exact (distinct_keys_fresh _ _ _ _ Hd).
    fold (spreadProps (acc ++ [(k, v)]) r).
    rewrite IH; now rewrite <- app_assoc.
Qed.

Lemma objGet_absent ps k :
  existsb (String.eqb k) (map fst ps) = false -> objGet ps k = None.
Proof.
  induction ps as [|[k' v'] r IH]; simpl; auto.
  intros H. apply orb_false_iff in H as [H1 H2].
  rewrite String.eqb_sym, H1. auto.
Qed.

Lemma objGet_spreadProps l : forall acc k,
  distinct_keys (map fst l) = true ->
  objGet (spreadProps acc l) k
  = match objGet l k with Some v => Some v | None => objGet acc k end.
Proof.
  induction l as [|[k' v'] r IH]; intros acc k Hd; unfold spreadProps; simpl; auto.
  simpl in Hd. apply andb_true_iff in Hd as [H1 H2]. apply negb_true_iff in H1.
  fold (spreadProps (objSet acc k' v') r). rewrite (IH _ _ H2).
  destruct (String.eqb k' k) eqn:E.
  - apply String.eqb_eq in E. subst k'.
    rewrite (objGet_absent _ _ H1). apply objGet_objSet_same.
  - destruct (objGet r k); auto. now apply objGet_objSet_other.
Qed.

Lemma notifySubscribers_no_listener fuel e st :
  noListener e ->
  exists e',
    SubscribersManager.notifySubscribers (S fuel) e st "*" = Some e'
    /\ roots e' = roots e /\ state e' = state e
    /\ subscribers e' = subscribers e
    /\ computedCache e' = computedCache e
    /\ computedDependencies e' = computedDependencies e
    /\ trace e' = trace e.
Proof.
  intros Hq. cbn [SubscribersManager.notifySubscribers].
  destruct (isUpdating e) eqn:Eu.
  { eexists. split; [reflexivity|]. repeat split. }
  destruct Hq as [Hq|Hq]; [congruence|].
  destruct (_ <? _)%nat.
  { eexists. split; [reflexivity|]. repeat split. }
  unfold SubscribersManager.dispatch.
  change (negb ("*" =? "*")%string) with false. cbn [andb subscribers with_cycle].
  rewrite Hq. cbn [pendingUpdates with_cycle].
  destruct (pendingUpdates e); eexists; (split; [reflexivity|]); repeat split.
Qed.

Lemma installRoot_tree e props :
  currentTree (Lifecycle.installRoot e props) = VObj (spreadProps [] props)
  /\ subscribers (Lifecycle.installRoot e props) = subscribers e
  /\ computedCache (Lifecycle.installRoot e props) = computedCache e
  /\ computedDependencies (Lifecycle.installRoot e props) = computedDependencies e
  /\ isUpdating (Lifecycle.installRoot e props) = isUpdating e
  /\ trace (Lifecycle.installRoot e props) = trace e.
Proof.
  unfold Lifecycle.installRoot.
  pose proof (treeOf_spread props [] (nextId e)) as Ht.
  destruct (spread [] props (nextId e)) as [root' next]. simpl in Ht.
  split; [|repeat split].
  unfold currentTree, rootAt. cbn [roots state with_heap].
  rewrite app_nth2 by lia. rewrite Nat.sub_diag. exact Ht.
Qed.

Lemma noListener_installRoot e props :
  noListener e -> noListener (Lifecycle.installRoot e props).
Proof.
  destruct (installRoot_tree e props) as (_ & Hs & _ & _ & Hu & _).
  unfold noListener. now rewrite Hs, Hu.
Qed.

Lemma currentTree_eq e e' :
  roots e' = roots e -> state e' = state e -> currentTree e' = currentTree e.
Proof. unfold currentTree, rootAt. now intros -> ->. Qed.

Lemma loadSnapshot_object fuel e props :
  noListener e ->
  exists e',
    Lifecycle.loadSnapshot (SubscribersManager.notifySubscribers (S fuel)) e
      (VObj props) = Some e'
    /\ currentTree e' = jsonCopy (VObj props)
    /\ subscribers e' = subscribers e
    /\ computedCache e' = computedCache e.
Proof.
  intros Hq. unfold Lifecycle.loadSnapshot, jsonClone. cbn [jsonAbsent].
  rewrite jsonCopy_obj. unfold ReactiveState.notifySubscribers.
  set (entries := jsonEntries props []).
  destruct (installRoot_tree e entries) as (Ht & Hs & Hc & _).
  destruct (notifySubscribers_no_listener fuel (Lifecycle.installRoot e entries)
              (state (Lifecycle.installRoot e entries))
              (noListener_installRoot e entries Hq))
    as (e' & He & Hr & Hst & Hs' & Hc' & _).
  exists e'. split; [exact He|].
  rewrite (currentTree_eq _ _ Hr Hst), Ht, Hs', Hc', Hs, Hc.
  repeat split. f_equal. apply (spreadProps_fresh entries []).
  pose proof (jsonCopy_well_formed (VObj props)) as Hw.
  rewrite jsonCopy_obj in Hw. simpl in Hw.
  apply andb_true_iff in Hw as [Hw _]. exact Hw.
Qed.





(** X12: a snapshot taken from a tree that holds JSON values only and
    loaded again, into the same store or another one, gives back that
    tree. *)
Theorem snapshot_round_trip (fuel : nat) (e0 e : Engine) (snap : Value) :
  json_only (currentTree e0) = true ->
  well_formed (currentTree e0) = true ->
  noListener e ->
  Lifecycle.getSnapshot e0 = Some snap ->
  exists e',
    Lifecycle.loadSnapshot (SubscribersManager.notifySubscribers (S fuel)) e
      snap = Some e'
    /\ currentTree e' = currentTree e0
    /\ Lifecycle.getSnapshot e' = Some snap.
Proof.
  intros Hj Hw Hq Hs.
  unfold Lifecycle.getSnapshot, jsonClone in Hs.
  rewrite (jsonAbsent_json_only _ Hj), (jsonCopy_clean _ Hj Hw) in Hs.
  injection Hs as <-.
  assert (Ho : exists props, currentTree e0 = VObj props)
    by (unfold currentTree, treeOf; eauto).
  destruct Ho as (props & Ho). rewrite Ho in *.
  destruct (loadSnapshot_object fuel e props Hq) as (e' & He & Ht & _).
  rewrite (jsonCopy_clean _ Hj Hw) in Ht.
  exists e'. split; [exact He|]. split; [exact Ht|].
  unfold Lifecycle.getSnapshot, jsonClone. rewrite Ht.
  rewrite (jsonAbsent_json_only _ Hj). now rewrite (jsonCopy_clean _ Hj Hw).
Qed.

Lemma snapshot_round_trip_witness :
  exists e',
    Lifecycle.loadSnapshot (SubscribersManager.notifySubscribers 1) newEngine
      (VObj [("a", VArr [VNum 1; VNull])]) = Some e'
    /\ currentTree e' = VObj [("a", VArr [VNum 1; VNull])].
Proof.
  destruct (snapshot_round_trip 0
              (mkEngine [[("a", (0%nat, VArr [VNum 1; VNull]))]] 0 1 [] 1000
                 false [] 0 100 [] [] [] [])
              newEngine (VObj [("a", VArr [VNum 1; VNull])])
              eq_refl eq_refl (or_intror eq_refl) eq_refl)
    as (e' & He & Ht & _).
  exists e'. split; [exact He|exact Ht].
Defined.

Lemma sanitized_props_fresh props :
  spreadProps [] (sanitizeEntries props []) = sanitizeEntries props [].
Proof.
  apply (spreadProps_fresh (sanitizeEntries props []) []).
  pose proof (sanitizeState_well_formed (VObj props)) as Hw.
  rewrite sanitizeState_obj in Hw. simpl in Hw.
  apply andb_true_iff in Hw as [Hw _]. exact Hw.
Qed.

(** X13: [reset] replaces the tree by the sanitized argument, or by the
    empty object when the argument is omitted or falsy, and empties the
    cache of computed values, so that [getComputed] answers [undefined]
    for every name; the subscriptions, those of the computed values
    included, stay. *)
Theorem reset_clears_cache_keeps_subscribers (fuel : nat) (e : Engine)
  (arg : option Value) :
  noListener e ->
  (forall v, arg = Some v -> truthy v = true -> exists props, v = VObj props) ->
  exists e',
    Lifecycle.reset (SubscribersManager.notifySubscribers (S fuel)) e arg
    = Some e'
    /\ currentTree e' = match arg with
                        | Some (VObj props) => sanitizeState (VObj props)
                        | _ => VObj []
                        end
    /\ (forall name, Api.getComputed e' name = VUndef)
    /\ computedDependencies e' = []
    /\ subscribers e' = subscribers e.
Proof.
  intros Hq Harg.
  assert (Hgo : forall props,
    exists e',
      ReactiveState.notifySubscribers
        (SubscribersManager.notifySubscribers (S fuel))
        (Lifecycle.clearComputed (Lifecycle.installRoot e props)) "*" = Some e'
      /\ currentTree e' = VObj (spreadProps [] props)
      /\ (forall name, Api.getComputed e' name = VUndef)
      /\ computedDependencies e' = []
      /\ subscribers e' = subscribers e).
  { intros props. unfold ReactiveState.notifySubscribers.
    destruct (installRoot_tree e props) as (Ht & Hs & _ & _ & Hu & _).
    set (e1 := Lifecycle.clearComputed (Lifecycle.installRoot e props)).
    assert (Hq1 : noListener e1).
    { unfold noListener, e1, Lifecycle.clearComputed.
      cbn [isUpdating subscribers with_computed]. now rewrite Hs, Hu. }
    destruct (notifySubscribers_no_listener fuel e1 (state e1) Hq1)
      as (e' & He & Hr & Hst & Hs' & Hc' & Hd' & _).
    exists e'. split; [exact He|].
    rewrite (currentTree_eq _ _ Hr Hst). unfold Api.getComputed.
    rewrite Hc', Hd', Hs'. repeat split; auto. }
  unfold Lifecycle.reset.
  destruct arg as [v|].
  - destruct (truthy v) eqn:Et.
    + destruct (Harg v eq_refl Et) as (props & ->).
      rewrite sanitizeState_obj.
      destruct (Hgo (sanitizeEntries props [])) as (e' & He & Ht & Hrest).
      exists e'. split; [exact He|]. split; [|exact Hrest].
      now rewrite Ht, sanitized_props_fresh.
    + destruct (Hgo []) as (e' & He & Ht & Hrest).
      exists e'. split; [exact He|]. split; [|exact Hrest].
      destruct v; try exact Ht. discriminate.
  - destruct (Hgo []) as (e' & He & Ht & Hrest).
    exists e'. split; [exact He|]. split; [exact Ht|exact Hrest].
Qed.

(** X14: [set] with an object is a shallow merge into a new root object:
    every key of the sanitized argument takes the sanitized value, every
    other key keeps its value, and the former root object is left as it
    was. *)
Theorem merge_is_shallow (fuel : nat) (e : Engine) (partial : Value)
  (sanitized : list (string * Value)) :
  noListener e ->
  (state e < List.length (roots e))%nat ->
  sanitizeState partial = VObj sanitized ->
  exists e',
    Api.merge (S fuel) e partial = Some e'
    /\ (forall key,
          objGet (propsOf (currentTree e')) key
          = match objGet sanitized key with
            | Some v => Some v
            | None => objGet (propsOf (currentTree e)) key
            end)
    /\ state e' = List.length (roots e)
    /\ treeOf (rootAt e' (state e)) = currentTree e.
Proof.
  intros Hq Hlt Hs. unfold Api.merge, ReactiveState.setMerge. rewrite Hs.
  pose proof (treeOf_spread sanitized (rootAt e (state e)) (nextId e)) as Ht.
  destruct (spread (rootAt e (state e)) sanitized (nextId e)) as [root' next].
  cbn [fst] in Ht. unfold ReactiveState.notifySubscribers.
  set (e1 := with_heap e (roots e ++ [root']) (List.length (roots e)) next).
  assert (Hq1 : noListener e1) by exact Hq.
  destruct (notifySubscribers_no_listener fuel e1 (state e1) Hq1)
    as (e' & He & Hr & Hst & _).
  exists e'. split; [exact He|].
  assert (Hd : distinct_keys (map fst sanitized) = true).
  { pose proof (sanitizeState_well_formed partial) as Hw. rewrite Hs in Hw.
    simpl in Hw. apply andb_true_iff in Hw as [Hw _]. exact Hw. }
  split; [|split].
  - intros key. rewrite (currentTree_eq _ _ Hr Hst).
    unfold currentTree at 1, rootAt. cbn [roots state with_heap e1].
    rewrite app_nth2 by lia. rewrite Nat.sub_diag. cbn [nth].
    rewrite Ht. cbn [propsOf]. now apply objGet_spreadProps.
  - rewrite Hst. reflexivity.
  - unfold currentTree, rootAt. rewrite Hr. cbn [roots with_heap e1].
    now rewrite app_nth1 by exact Hlt.
Qed.

(** ** Subscribers that fail with a [TypeError] or a [ReferenceError] *)
































Section Eviction.

Variable i : nat.
Variable key : string.
Variable sid : nat.
Variable body : Value -> string -> Prog.
Variable name : string.
Hypothesis body_throws : forall arg p, body arg p = PThrow name.
Hypothesis name_defect : SubscribersManager.isDefect (Threw name) = true.








End Eviction.




Lemma reset_clears_cache_keeps_subscribers_witness :
  exists e',
    Lifecycle.reset (SubscribersManager.notifySubscribers 1) computedEngine
      (Some (VObj [("__proto__", VNum 1); ("x", VNum 2)])) = Some e'
    /\ currentTree e' = VObj [("x", VNum 2)]
    /\ Api.getComputed e' "double" = VUndef
    /\ subscribers e' = subscribers computedEngine.
Proof.
  destruct (reset_clears_cache_keeps_subscribers 0 computedEngine
              (Some (VObj [("__proto__", VNum 1); ("x", VNum 2)])))
    as (e' & He & Ht & Hc & _ & Hs).
  - right. reflexivity.
  - intros v Hv _. injection Hv as <-. eexists. reflexivity.
  - exists e'. split; [exact He|]. split; [exact Ht|].
    split; [exact (Hc "double")|exact Hs].
Defined.

Lemma merge_is_shallow_witness :
  exists e',
    Api.merge 1
      (mkEngine [[("a", (0%nat, VNum 1)); ("b", (1%nat, VNum 2))]] 0 2 [] 1000
         false [] 0 100 [] [] [] [])
      (VObj [("b", VNum 3); ("constructor", VNum 9); ("c", VNum 4)]) = Some e'
    /\ objGet (propsOf (currentTree e')) "a" = Some (VNum 1)
    /\ objGet (propsOf (currentTree e')) "b" = Some (VNum 3)
    /\ objGet (propsOf (currentTree e')) "constructor" = None.
Proof.
  destruct (merge_is_shallow 0
              (mkEngine [[("a", (0%nat, VNum 1)); ("b", (1%nat, VNum 2))]] 0 2
                 [] 1000 false [] 0 100 [] [] [] [])
              (VObj [("b", VNum 3); ("constructor", VNum 9); ("c", VNum 4)])
              [("b", VNum 3); ("c", VNum 4)])
    as (e' & He & Hk & _).
  - right. reflexivity.
  - simpl. lia.
  - reflexivity.
  - exists e'. split; [exact He|].
    split; [exact (Hk "a")|]. split; [exact (Hk "b")|exact (Hk "constructor")].
Defined.



(** ** The virtual nodes that [createElement] builds *)

Section CreatorFacts.

Import VNodeCreator.

Variable security : Security.
Variable maxDepth : nat.
Variable numberToString : Z -> string.
Variable lowerTrim : string -> string.

Local Abbreviation create :=
  (createElement security maxDepth numberToString lowerTrim).

Lemma vetted_children l :
  (fix all (l : list VNode) : Prop :=
     match l with
     | [] => True
     | x :: r => vetted security x /\ all r
     end) l <-> Forall (vetted security) l.
Proof.
  induction l as [|x r IH]; simpl.
  - split; auto.
  - rewrite IH. split.
    + intros [H1 H2]. now constructor.
    + intros H. inversion H; subst. auto.
Qed.

Lemma mapFilter_Forall (P : VNode -> Prop) (f : Value -> option (Created VNode))
  items :
  (forall child n, f child = Some (Returns n) -> P n) ->
  forall ns, mapFilter f items = Some (Returns ns) -> Forall P ns.
Proof.
  intros Hf. induction items as [|x r IH]; simpl; intros ns.
  - intros [= <-]. constructor.
  - destruct (f x) as [[n|m]|] eqn:Hx; try discriminate.
    destruct (mapFilter f r) as [[ns'|m]|]; try discriminate.
    intros [= <-]. specialize (IH _ eq_refl).
    destruct n; simpl; auto; constructor; auto; eapply Hf; eauto.
Qed.

Lemma createElement_vetted fuel : forall vnode depth n,
  create fuel vnode depth = Some (Returns n) -> vetted security n.
Proof.
  induction fuel as [|fuel IH]; intros vnode depth n; [discriminate|].
  cbn [createElement]. destruct (maxDepth <? depth)%nat.
  { intros [= <-]. exact I. }
  assert (Hmap : forall items d ns,
    mapFilter (fun child => create fuel child d) items = Some (Returns ns) ->
    Forall (vetted security) ns).
  { intros items d ns. apply mapFilter_Forall. intros child n0. apply IH. }
  destruct vnode as [| |b|z|s|f|items|props].
  - intros [= <-]. exact I.
  - intros [= <-]. exact I.
  - destruct b; intros [= <-]; exact I.
  - intros [= <-]. simpl. eauto.
  - intros [= <-]. simpl. eauto.
  - intros [= <-]. exact I.
  - destruct (mapFilter _ items) as [[ns|m]|] eqn:Hm; try discriminate.
    intros [= <-]. simpl. apply vetted_children. eapply Hmap; eauto.
  - unfold createElementNode.
    destruct (negb (truthy _)); [discriminate|].
    destruct (withDefault props "tag" VUndef) as [| |b|z|t|f|xs|ps];
      try discriminate.
    destruct (negb (isTagAllowed security (lowerTrim t))) eqn:Ea.
    { apply IH. }
    apply negb_false_iff in Ea.
    destruct (withDefault props "children" (VArr [])) as [| |b|z|s|f|xs|ps].
    all: try (destruct (create fuel _ (S depth)) as [[c|m]|] eqn:Hc;
              try discriminate; intros [= <-];
              split; [exact Ea|]; split; [eauto|];
              apply vetted_children; apply IH in Hc;
              destruct c; simpl; auto; fail).
    destruct (mapFilter _ xs) as [[ns|m]|] eqn:Hm; try discriminate.
    intros [= <-]. split; [exact Ea|]. split; [eauto|].
    apply vetted_children. eapply Hmap; eauto.
Qed.

Lemma fold_max_le (l : list VNode) b :
  Forall (fun n => (height n <= b)%nat) l ->
  (fold_right (fun c m => Nat.max (height c) m) 0 l <= b)%nat.
Proof. induction 1; simpl; lia. Qed.

Lemma createElement_height fuel : forall vnode depth n,
  create fuel vnode depth = Some (Returns n) ->
  (height n <= S maxDepth - depth)%nat.
Proof.
  induction fuel as [|fuel IH]; intros vnode depth n; [discriminate|].
  cbn [createElement]. destruct (maxDepth <? depth)%nat eqn:Ed.
  { intros [= <-]. cbn [height]. lia. }
  apply Nat.ltb_ge in Ed.
  assert (Hmap : forall items ns,
    mapFilter (fun child => create fuel child (S depth)) items
    = Some (Returns ns) ->
    (fold_right (fun c m => Nat.max (height c) m) 0 ns <= maxDepth - depth)%nat).
  { intros items ns Hm. apply fold_max_le.
    revert Hm. apply mapFilter_Forall. intros child n0 Hc.
    apply IH in Hc. lia. }
  destruct vnode as [| |b|z|s|f|items|props].
  - intros [= <-]. cbn [height]. lia.
  - intros [= <-]. cbn [height]. lia.
  - destruct b; intros [= <-]; cbn [height]; lia.
  - intros [= <-]. cbn [height]. lia.
  - intros [= <-]. cbn [height]. lia.
  - intros [= <-]. cbn [height]. lia.
  - destruct (mapFilter _ items) as [[ns|m]|] eqn:Hm; try discriminate.
    intros [= <-]. cbn [height]. specialize (Hmap _ _ Hm). lia.
  - unfold createElementNode.
    destruct (negb (truthy _)); [discriminate|].
    destruct (withDefault props "tag" VUndef) as [| |b|z|t|f|xs|ps];
      try discriminate.
    destruct (negb (isTagAllowed security (lowerTrim t))).
    { apply IH. }
    destruct (withDefault props "children" (VArr [])) as [| |b|z|s|f|xs|ps].
    all: try (destruct (create fuel _ (S depth)) as [[c|m]|] eqn:Hc;
              try discriminate; intros [= <-];
              apply IH in Hc; destruct c; cbn [height filter isNode fold_right app] in *; lia).
    destruct (mapFilter _ xs) as [[ns|m]|] eqn:Hm; try discriminate.
    intros [= <-]. cbn [height]. specialize (Hmap _ _ Hm). lia.
Qed.

Lemma rank_positive v : (1 <= rank v)%nat.
Proof. destruct v; simpl; lia. Qed.

Lemma rank_item items x :
  In x items -> (rank x < rank (VArr items))%nat.
Proof.
  simpl. induction items as [|y r IH]; simpl; [contradiction|].
  intros [<-|Hin]; [lia|]. specialize (IH Hin). lia.
Qed.

Lemma rank_prop props k v :
  objGet props k = Some v -> (rank v < rank (VObj props))%nat.
Proof.
  simpl. induction props as [|[k0 v0] r IH]; simpl; [discriminate|].
  destruct (String.eqb k0 k).
  - intros [= ->]. lia.
  - intros H. specialize (IH H). lia.
Qed.

Lemma rank_withDefault props k default :
  withDefault props k default = default
  \/ (rank (withDefault props k default) < rank (VObj props))%nat.
Proof.
  unfold withDefault. destruct (objGet props k) as [v|] eqn:Hg; auto.
  pose proof (rank_prop _ _ _ Hg). destruct v; auto.
Qed.

Lemma mapFilter_returns (f : Value -> option (Created VNode)) items :
  (forall x, In x items -> f x <> None) -> mapFilter f items <> None.
Proof.
  induction items as [|x r IH]; simpl; intros Hf; [discriminate|].
  destruct (f x) as [[n|m]|] eqn:Hx.
  - destruct (mapFilter f r) as [[ns|m]|] eqn:Hr; try discriminate.
    exfalso. apply IH; auto.
  - discriminate.
  - exfalso. apply (Hf x); auto.
Qed.

Lemma withDefault_again props k default v0 :
  withDefault props k default <> VUndef ->
  withDefault
    [("tag", v0); ("attrs", withDefault props "attrs" (VObj []));
     ("children", withDefault props "children" (VArr []))] "children" (VArr [])
  = withDefault props "children" (VArr []).
Proof.
  intros _. unfold withDefault at 1. cbn [objGet String.eqb Ascii.eqb Bool.eqb].
  simpl. unfold withDefault.
  destruct (objGet props "children") as [[]|]; reflexivity.
Qed.

Lemma children_returns fuel props depth :
  (forall m, (m < fuel)%nat ->
     forall v d, (2 * rank v <= m)%nat -> create m v d <> None) ->
  (2 * rank (VObj props) <= fuel)%nat ->
  forall f, (fuel <= f + 2)%nat -> (f < fuel)%nat ->
  match withDefault props "children" (VArr []) with
  | VArr items => mapFilter (fun child => create f child (S depth)) items <> None
  | c => create f c (S depth) <> None
  end.
Proof.
  intros IH Hr f Hf1 Hf2.
  pose proof (rank_withDefault props "children" (VArr [])) as Hc.
  destruct (withDefault props "children" (VArr [])) as [| |b|z|s|g|xs|ps] eqn:Ec.
  all: try (apply IH; [lia|]; destruct Hc as [Hc|Hc]; [discriminate|];
            simpl rank in *; lia).
  apply mapFilter_returns. intros x Hx. apply IH; [lia|].
  destruct Hc as [Hc|Hc].
  - injection Hc as ->. destruct Hx.
  - pose proof (rank_item _ _ Hx). lia.
Qed.

Lemma createElement_returns_aux :
  isTagAllowed security (lowerTrim "div") = true ->
  forall fuel vnode depth,
    (2 * rank vnode <= fuel)%nat -> create fuel vnode depth <> None.
Proof.
  intros Hdiv fuel. induction fuel as [fuel IH] using lt_wf_ind.
  intros vnode depth Hr. pose proof (rank_positive vnode) as Hp.
  destruct fuel as [|f1]; [lia|].
  cbn [createElement]. destruct (maxDepth <? depth)%nat eqn:Ed; [discriminate|].
  destruct vnode as [| |b|z|s|f|items|props]; try discriminate.
  - destruct b; discriminate.
  - destruct (mapFilter _ items) as [[ns|m]|] eqn:Hm; try discriminate.
    exfalso. revert Hm. apply mapFilter_returns. intros x Hx. apply IH; [lia|].
    pose proof (rank_item _ _ Hx). lia.
  - unfold createElementNode at 1.
    destruct (negb (truthy _)); [discriminate|].
    destruct (withDefault props "tag" VUndef) as [| |b|z|t|f|xs|ps];
      try discriminate.
    pose proof (children_returns (S f1) props depth IH Hr) as Hch.
    destruct (negb (isTagAllowed security (lowerTrim t))).
    + destruct f1 as [|f2]; [lia|].
      cbn [createElement]. rewrite Ed. unfold createElementNode.
      rewrite (withDefault_again props "children" (VArr []) (VStr "div"))
        by (unfold withDefault; destruct (objGet props "children") as [[]|];
            discriminate).
      change (withDefault
                [("tag", VStr "div");
                 ("attrs", withDefault props "attrs" (VObj []));
                 ("children", withDefault props "children" (VArr []))]
                "tag" VUndef) with (VStr "div").
      cbn [truthy String.eqb negb]. rewrite Hdiv. cbn [negb].
      specialize (Hch f2 ltac:(lia) ltac:(lia)).
      destruct (withDefault props "children" (VArr [])) as [| |b|z|s|g|xs|ps].
      all: try (destruct (create f2 _ (S depth)) as [[c|m]|];
                [discriminate|discriminate|contradiction]).
      destruct (mapFilter _ xs) as [[ns|m]|]; try discriminate. contradiction.
    + specialize (Hch f1 ltac:(lia) ltac:(lia)).
      destruct (withDefault props "children" (VArr [])) as [| |b|z|s|g|xs|ps].
      all: try (destruct (create f1 _ (S depth)) as [[c|m]|];
                [discriminate|discriminate|contradiction]).
      destruct (mapFilter _ xs) as [[ns|m]|]; try discriminate. contradiction.
Qed.

Lemma createElement_never_returns_aux :
  isTagAllowed security (lowerTrim "div") = false ->
  forall fuel props t depth,
    withDefault props "tag" VUndef = VStr t -> t <> "" ->
    isTagAllowed security (lowerTrim t) = false ->
    (depth <= maxDepth)%nat ->
    create fuel (VObj props) depth = None.
Proof.
  intros Hdiv fuel. induction fuel as [|fuel IH]; intros props t depth Ht Hne Ha Hd;
    [reflexivity|].
  cbn [createElement].
  assert (Ed : (maxDepth <? depth)%nat = false) by (apply Nat.ltb_ge; lia).
  rewrite Ed. unfold createElementNode. rewrite Ht.
  assert (Htr : truthy (VStr t) = true).
  { simpl. apply negb_true_iff. now apply String.eqb_neq. }
  rewrite Htr, Ha. cbn [negb].
  apply (IH _ "div" depth); auto. discriminate.
Qed.

End CreatorFacts.

Section CreatorFuel.

Import VNodeCreator.

Variable security : Security.
Variable maxDepth : nat.
Variable numberToString : Z -> string.
Variable lowerTrim : string -> string.

Local Abbreviation create :=
  (createElement security maxDepth numberToString lowerTrim).

Lemma mapFilter_ext (f g : Value -> option (Created VNode)) items :
  (forall x r, f x = Some r -> g x = Some r) ->
  forall r, mapFilter f items = Some r -> mapFilter g items = Some r.
Proof.
  intros Hfg. induction items as [|x rest IH]; simpl; auto.
  intros r. destruct (f x) as [[n|m]|] eqn:Hx; try discriminate.
  - rewrite (Hfg _ _ Hx).
    destruct (mapFilter f rest) as [[ns|m]|] eqn:Hr; try discriminate.
    + now rewrite (IH _ eq_refl).
    + now rewrite (IH _ eq_refl).
  - now rewrite (Hfg _ _ Hx).
Qed.

Lemma createElement_more_fuel fuel : forall vnode depth r,
  create fuel vnode depth = Some r -> create (S fuel) vnode depth = Some r.
Proof.
  induction fuel as [|fuel IH]; intros vnode depth r; [discriminate|].
  intros H. cbn [createElement] in H.
  change (create (S (S fuel)) vnode depth)
    with (if (maxDepth <? depth)%nat then Some (Returns NNull)
          else
            match vnode with
            | VStr s => Some (Returns (NText (escapeHtml security s)))
            | VNum n =>
                Some (Returns (NText (escapeHtml security (numberToString n))))
            | VUndef | VNull | VBool false => Some (Returns NNull)
            | VArr items =>
                match mapFilter (fun child => create (S fuel) child (S depth))
                        items with
                | None => None
                | Some (Throws message) => Some (Throws message)
                | Some (Returns ns) => Some (Returns (NArray ns))
                end
            | VBool true | VFun _ => Some (Returns NNull)
            | VObj props =>
                createElementNode security lowerTrim (create (S fuel)) props depth
            end).
  destruct (maxDepth <? depth)%nat; [exact H|].
  assert (Hmap : forall items d r0,
    mapFilter (fun child => create fuel child d) items = Some r0 ->
    mapFilter (fun child => create (S fuel) child d) items = Some r0).
  { intros items d. apply mapFilter_ext. intros x r0. apply IH. }
  destruct vnode as [| |b|z|s|f|items|props]; try exact H.
  - destruct (mapFilter _ items) as [r0|] eqn:Hm; [|discriminate].
    now rewrite (Hmap _ _ _ Hm).
  - unfold createElementNode in *.
    destruct (negb (truthy _)); [exact H|].
    destruct (withDefault props "tag" VUndef) as [| |b|z|t|f|xs|ps];
      try exact H.
    destruct (negb (isTagAllowed security (lowerTrim t))); [now apply IH|].
    destruct (withDefault props "children" (VArr [])) as [| |b|z|s|f|xs|ps].
    all: try (destruct (create fuel _ (S depth)) as [r0|] eqn:Hc;
              [|discriminate]; now rewrite (IH _ _ _ Hc)).
    destruct (mapFilter _ xs) as [r0|] eqn:Hm; [|discriminate].
    now rewrite (Hmap _ _ _ Hm).
Qed.

Lemma createElement_fuel_le f1 f2 vnode depth r :
  (f1 <= f2)%nat -> create f1 vnode depth = Some r ->
  create f2 vnode depth = Some r.
Proof.
  induction 1; auto. intros Hc. apply createElement_more_fuel. auto.
Qed.

End CreatorFuel.

(** X16: whatever the virtual node and the [security] object, every
    element of the tree that [createElement] returns has a tag that
    [isTagAllowed] accepts and attributes that went through
    [sanitizeAttributes], and every text went through [escapeHtml]. *)
Theorem createElement_output_is_vetted (security : VNodeCreator.Security)
  (maxDepth : nat) (numberToString : Z -> string)
  (lowerTrim : string -> string) (fuel : nat) (vnode : Value) (depth : nat)
  (n : VNodeCreator.VNode) :
  VNodeCreator.createElement security maxDepth numberToString lowerTrim
    fuel vnode depth = Some (VNodeCreator.Returns n) ->
  VNodeCreator.vetted security n.
Proof. apply createElement_vetted. Qed.

Lemma createElement_output_is_vetted_witness :
  VNodeCreator.vetted plainSecurity
    (VNodeCreator.NElement "div" (VObj [])
       [VNodeCreator.NText "x";
        VNodeCreator.NElement "p" (VObj []) [VNodeCreator.NText "y"]]).
Proof.
  exact (createElement_output_is_vetted plainSecurity 100 (fun _ => "0")
           (fun s => s) 4 scriptNode 0 _ eq_refl).
Defined.

(** X17: the tree that [createElement] returns from depth [depth] has at
    most [maxDepth + 1 - depth] nodes on a branch: what lies deeper in the
    virtual node is left out. *)
Theorem createElement_height_is_bounded (security : VNodeCreator.Security)
  (maxDepth : nat) (numberToString : Z -> string)
  (lowerTrim : string -> string) (fuel : nat) (vnode : Value) (depth : nat)
  (n : VNodeCreator.VNode) :
  VNodeCreator.createElement security maxDepth numberToString lowerTrim
    fuel vnode depth = Some (VNodeCreator.Returns n) ->
  (VNodeCreator.height n <= S maxDepth - depth)%nat.
Proof. apply createElement_height. Qed.

Lemma createElement_height_is_bounded_witness :
  (VNodeCreator.height
     (VNodeCreator.NElement "div" (VObj []) [VNodeCreator.NText "x"]) <= 2)%nat.
Proof.
  exact (createElement_height_is_bounded plainSecurity 1 (fun _ => "0")
           (fun s => s) 4 scriptNode 0 _ eq_refl).
Defined.

(** X18: when the [security] object allows [div], [createElement] returns
    or throws for every virtual node, and what it gives does not depend on
    how deep the calls were allowed to nest. *)
Theorem createElement_returns_when_div_allowed
  (security : VNodeCreator.Security) (maxDepth : nat)
  (numberToString : Z -> string) (lowerTrim : string -> string)
  (vnode : Value) (depth : nat) :
  VNodeCreator.isTagAllowed security (lowerTrim "div") = true ->
  exists r,
    forall fuel,
      (2 * VNodeCreator.rank vnode <= fuel)%nat ->
      VNodeCreator.createElement security maxDepth numberToString lowerTrim
        fuel vnode depth = Some r.
Proof.
  intros Hdiv.
  destruct (VNodeCreator.createElement security maxDepth numberToString
              lowerTrim (2 * VNodeCreator.rank vnode) vnode depth)
    as [r|] eqn:Hr.
  - exists r. intros fuel Hf. eapply createElement_fuel_le; eauto.
  - exfalso. revert Hr. apply createElement_returns_aux; auto.
Qed.

Lemma createElement_returns_when_div_allowed_witness :
  exists r,
    forall fuel,
      (2 * VNodeCreator.rank scriptNode <= fuel)%nat ->
      VNodeCreator.createElement plainSecurity 100 (fun _ => "0") (fun s => s)
        fuel scriptNode 0 = Some r.
Proof.
  apply (createElement_returns_when_div_allowed plainSecurity 100
           (fun _ => "0") (fun s => s) scriptNode 0).
  reflexivity.
Defined.

(** X19: when the [security] object does not allow [div], the replacement
    of a refused tag by [div] is refused in turn, again and again: for a
    virtual node whose tag is refused, the calls of [createElement] nest
    without end and no node is returned. *)
Theorem createElement_needs_div_allowed (security : VNodeCreator.Security)
  (maxDepth : nat) (numberToString : Z -> string)
  (lowerTrim : string -> string) (fuel : nat)
  (props : list (string * Value)) (t : string) (depth : nat) :
  VNodeCreator.isTagAllowed security (lowerTrim "div") = false ->
  VNodeCreator.withDefault props "tag" VUndef = VStr t ->
  t <> "" ->
  VNodeCreator.isTagAllowed security (lowerTrim t) = false ->
  (depth <= maxDepth)%nat ->
  VNodeCreator.createElement security maxDepth numberToString lowerTrim
    fuel (VObj props) depth = None.
Proof. intros. eapply createElement_never_returns_aux; eauto. Qed.

Lemma createElement_needs_div_allowed_witness :
  VNodeCreator.createElement spanSecurity 100 (fun _ => "0") (fun s => s)
    1000 (VObj [("tag", VStr "script")]) 0 = None.
Proof.
  apply (createElement_needs_div_allowed spanSecurity 100 (fun _ => "0")
           (fun s => s) 1000 [("tag", VStr "script")] "script" 0).
  - reflexivity.
  - reflexivity.
  - discriminate.
  - reflexivity.
  - lia.
Defined.
